(** * pg-schema-migrate: the migration workflow of [main.go]

    A shallow embedding of the orchestration code of [main.go].  The
    program is a sequential pipeline around external collaborators (the
    PostgreSQL server reached through [database/sql], the [pg_dump] and
    [psql] binaries, the file system, the terminal).  Their answers are
    supplied by a [World]; everything the program does to them is recorded
    as an [Event] of a chronological trace, next to the process
    environment that [os.Setenv] and [os.Unsetenv] mutate. *)

From stdpp Require Import base strings list gmap pretty.

Set Default Proof Using "Type".

(** ** Data model (the two structs of [main.go]) *)

Record DatabaseConfig := mkConfig {
  Host : string;
  Port : string;
  Username : string;
  Password : string;
  Database : string;
  SSLMode : string
}.

Record MigrationOptions := mkOptions {
  Mode : string;           (* "direct" or "export" *)
  OutputDir : string;
  CreateBackup : bool;
  BackupDir : string;
  IncludeRoles : bool;
  IncludeData : bool;      (* for rollback scripts *)
  DryRun : bool
}.

(** The command-line flags registered in [main], as cobra hands them to
    [runSchemaMigration] (defaults already applied). *)
Record Flags := mkFlags {
  source_host : string;
  source_port : string;
  source_user : string;
  source_db : string;
  source_ssl : string;
  dest_host : string;
  dest_port : string;
  dest_user : string;
  dest_db : string;
  dest_ssl : string;
  mode : string;
  output_dir : string;
  dry_run : bool;
  include_roles : bool;
  no_backup : bool
}.

(** A Go [error] value: [None] is [nil], [Some msg] carries the text that
    [%v] prints. *)
Definition error := option string.

(** ** Strings: the pieces of [strings] and [path/filepath] the code uses *)

Module Str.

Definition eqb (a b : string) : bool := bool_decide (a = b).

(** [strings.Join] *)
Fixpoint join (sep : string) (l : list string) : string :=
  match l with
  | [] => ""
  | [x] => x
  | x :: rest => x +:+ sep +:+ join sep rest
  end.

(** Splitting at every occurrence of a character. *)
Fixpoint split_go (c : Ascii.ascii) (s : string) (cur : string) : list string :=
  match s with
  | EmptyString => [String.rev cur]
  | String a rest =>
      if bool_decide (a = c) then String.rev cur :: split_go c rest ""
      else split_go c rest (String a cur)
  end.

Definition split (c : Ascii.ascii) (s : string) : list string := split_go c s "".

Definition is_space (a : Ascii.ascii) : bool :=
  match Ascii.nat_of_ascii a with
  | 9 | 10 | 11 | 12 | 13 | 32 => true
  | _ => false
  end.

Fixpoint trim_left (s : string) : string :=
  match s with
  | String a rest => if is_space a then trim_left rest else s
  | EmptyString => EmptyString
  end.

(** [strings.TrimSpace] on ASCII white space. *)
Definition trim_space (s : string) : string :=
  String.rev (trim_left (String.rev (trim_left s))).

(** [x] occurs in [s] as a contiguous piece. *)
Definition embeds (s x : string) : Prop :=
  exists pre post, s = pre +:+ x +:+ post.

End Str.

(** [path/filepath] on a Unix system. *)
Module filepath.

(** The component pass of [Clean]: empty and [.] components vanish, a
    [..] removes the component before it, is dropped at the root and is
    kept at the front of a relative path.  [out] is the output so far,
    last component first. *)
Fixpoint clean_go (rooted : bool) (comps out : list string) : list string :=
  match comps with
  | [] => rev out
  | c :: cs =>
      if Str.eqb c "" || Str.eqb c "." then clean_go rooted cs out
      else if Str.eqb c ".." then
        match out with
        | o :: out' =>
            if Str.eqb o ".." then clean_go rooted cs (".." :: out)
            else clean_go rooted cs out'
        | [] => if rooted then clean_go rooted cs []
                else clean_go rooted cs [".."]
        end
      else clean_go rooted cs (c :: out)
  end.

(** The separator, [/]. *)
Definition Separator : Ascii.ascii := Ascii.ascii_of_nat 47.

Definition is_rooted (path : string) : bool :=
  match path with
  | String a _ => bool_decide (a = Separator)
  | EmptyString => false
  end.

Definition Clean (path : string) : string :=
  if Str.eqb path "" then "."
  else
    let rooted := is_rooted path in
    let body := Str.join "/" (clean_go rooted (Str.split Separator path) []) in
    if rooted then "/" +:+ body
    else if Str.eqb body "" then "." else body.

(** [Join]: the elements from the first non-empty one on, joined by the
    separator and cleaned; the empty string when all are empty. *)
Fixpoint Join (elem : list string) : string :=
  match elem with
  | [] => ""
  | e :: rest => if Str.eqb e "" then Join rest
                 else Clean (Str.join "/" elem)
  end.

End filepath.

(** ** Time: [time.Now()] and the two layouts the code formats with *)

Record Time := mkTime {
  year : nat; month : nat; day : nat;
  hour : nat; minute : nat; second : nat
}.

Module time.

Definition pad2 (n : nat) : string :=
  if decide (n < 10) then "0" +:+ pretty n else pretty n.

Definition pad4 (n : nat) : string :=
  if decide (n < 10) then "000" +:+ pretty n
  else if decide (n < 100) then "00" +:+ pretty n
  else if decide (n < 1000) then "0" +:+ pretty n
  else pretty n.

(** Layout ["20060102_150405"]. *)
Definition format_compact (t : Time) : string :=
  pad4 (year t) +:+ pad2 (month t) +:+ pad2 (day t) +:+ "_" +:+
  pad2 (hour t) +:+ pad2 (minute t) +:+ pad2 (second t).

(** Layout ["2006-01-02 15:04:05"]. *)
Definition format_datetime (t : Time) : string :=
  pad4 (year t) +:+ "-" +:+ pad2 (month t) +:+ "-" +:+ pad2 (day t) +:+ " " +:+
  pad2 (hour t) +:+ ":" +:+ pad2 (minute t) +:+ ":" +:+ pad2 (second t).

End time.

(** ** [fmt.Sprintf] for the verbs the code uses

    [%s] and [%v] print the next argument (every argument in [main.go] is
    a string or an error, whose text is what [%v] prints); [%%] prints a
    percent sign. *)
Module fmt.

Definition is_char (n : nat) (a : Ascii.ascii) : bool :=
  bool_decide (a = Ascii.ascii_of_nat n).

Fixpoint Sprintf (format : string) (args : list string) : string :=
  match format with
  | EmptyString => EmptyString
  | String a rest =>
      if is_char 37 a then
        match rest with
        | String v rest' =>
            if is_char 115 v || is_char 118 v then
              match args with
              | x :: args' => x +:+ Sprintf rest' args'
              | [] => "%!" +:+ String v "(MISSING)" +:+ Sprintf rest' []
              end
            else if is_char 37 v then String v (Sprintf rest' args)
            else String a (String v (Sprintf rest' args))
        | EmptyString => "%!(NOVERB)"
        end
      else String a (Sprintf rest args)
  end.

End fmt.

(** ** Effects *)

Inductive result (A : Type) :=
| Ok (a : A)
| Err (msg : string).
Arguments Ok {A} a.
Arguments Err {A} msg.

Inductive Level := INFO | ERROR | SUCCESS | WARNING | DEBUG.

(** What the process does, in the order it does it.  [EvCall] and
    [EvReturn] mark the entry of a function of [main.go] and its return
    value; the other events are the calls that leave the process, each
    with the answer it got. *)
Inductive Event :=
| EvCall (fn : string)
| EvReturn (fn : string) (err : error)
| EvLog (lvl : Level) (msg : string)
| EvPrint (text : string)
| EvReadPassword (res : result string)
| EvReadString (res : result string)
| EvMkdirAll (dir : string) (res : error)
| EvSetenv (key value : string)
| EvUnsetenv (key : string)
| EvRun (cmd : string) (args : list string) (env : gmap string string) (res : error)
| EvOpen (connStr : string) (res : error)
| EvClose (connStr : string)
| EvPing (connStr : string) (res : error)
| EvQueryRow (connStr query : string) (args : list string) (res : result bool)
| EvExec (connStr query : string) (args : list string) (res : error)
| EvWriteFile (path content : string) (perm : N) (res : error).

(** The collaborators.  Every answer may depend on all that happened
    before (the trace so far), so a server that loses a database after a
    drop, or a tool that fails the second time, is a [World]. *)
Record World := mkWorld {
  clock : list Event -> Time;
  read_password : list Event -> result string;
  read_string : list Event -> result string;
  mkdir_all : list Event -> string -> error;
  run_command : list Event -> string -> list string -> gmap string string -> error;
  sql_open : list Event -> string -> error;
  sql_ping : list Event -> string -> error;
  sql_query_bool : list Event -> string -> string -> list string -> result bool;
  sql_exec : list Event -> string -> string -> list string -> error;
  write_file : list Event -> string -> string -> N -> error
}.

Record State := mkState {
  environ : gmap string string;
  trace : list Event
}.

(** How a computation ends: with a value, with a run-time panic (a nil
    pointer dereference), or with [os.Exit]. *)
Inductive Outcome (A : Type) :=
| Val (a : A)
| Panic
| Exit (code : Z).
Arguments Val {A} a.
Arguments Panic {A}.
Arguments Exit {A} code.

Definition M (A : Type) : Type := World -> State -> Outcome A * State.

Definition ret {A} (a : A) : M A := fun _ s => (Val a, s).

Definition bind {A B} (m : M A) (k : A -> M B) : M B := fun w s =>
  match m w s with
  | (Val a, s') => k a w s'
  | (Panic, s') => (Panic, s')
  | (Exit c, s') => (Exit c, s')
  end.

Declare Scope go_scope.
Delimit Scope go_scope with go.
Notation "x <- m ;; k" := (bind m (fun x => k))
  (at level 20, m at level 99, k at level 200, only parsing) : go_scope.
Notation "' pat <- m ;; k" := (bind m (fun x => match x with pat => k end))
  (at level 20, pat pattern, m at level 99, k at level 200, only parsing) : go_scope.
Notation "m ;; k" := (bind m (fun _ => k))
  (at level 100, k at level 200, only parsing, right associativity) : go_scope.
Local Open Scope go_scope.

Definition emit (e : Event) : M unit := fun _ s =>
  (Val tt, {| environ := environ s; trace := trace s ++ [e] |}).

(** The answer of the world at the present trace. *)
Definition ask {A} (f : World -> list Event -> A) : M A := fun w s =>
  (Val (f w (trace s)), s).

Definition panic {A} : M A := fun _ s => (Panic, s).

(** A field access through a [*DatabaseConfig]: a nil pointer panics. *)
Definition deref {A} (p : option A) : M A :=
  match p with
  | Some a => ret a
  | None => panic
  end.

(** [defer d] registered before [body] runs: [d] runs when the function
    leaves, by return or by panic, but not when the process exits. *)
Definition defer {A} (d : M unit) (body : M A) : M A := fun w s =>
  match body w s with
  | (Exit c, s') => (Exit c, s')
  | (r, s') => (r, snd (d w s'))
  end.

(** A function of [main.go]: its entry and its return are recorded. *)
Definition fn_ {A} (name : string) (err_of : A -> error) (body : M A) : M A :=
  emit (EvCall name) ;;
  r <- body ;;
  emit (EvReturn name (err_of r)) ;;
  ret r.

Definition fn (name : string) (body : M error) : M error := fn_ name id body.

(** The process exit code of an outcome: a normal return of [main] is 0,
    an unrecovered panic is 2. *)
Definition exit_code {A} (o : Outcome A) : Z :=
  match o with
  | Val _ => 0
  | Panic => 2
  | Exit c => c
  end.

(** *** The standard library calls that leave the process *)

Module os.
Definition Setenv (key value : string) : M unit := fun _ s =>
  (Val tt, {| environ := <[key := value]> (environ s);
              trace := trace s ++ [EvSetenv key value] |}).
Definition Unsetenv (key : string) : M unit := fun _ s =>
  (Val tt, {| environ := delete key (environ s);
              trace := trace s ++ [EvUnsetenv key] |}).
Definition MkdirAll (dir : string) : M error :=
  r <- ask (fun w t => mkdir_all w t dir) ;;
  emit (EvMkdirAll dir r) ;;
  ret r.
Definition Exit {A} (code : Z) : M A := fun _ s => (Exit code, s).
End os.

Module exec.
(** [exec.Command(name, args...)] followed by [cmd.Run()]: the child
    inherits the environment of the process as it is at that moment. *)
Definition Run (name : string) (args : list string) : M error := fun w s =>
  let r := run_command w (trace s) name args (environ s) in
  (Val r, {| environ := environ s;
             trace := trace s ++ [EvRun name args (environ s) r] |}).
End exec.

Module sql.
Definition Open (connStr : string) : M error :=
  r <- ask (fun w t => sql_open w t connStr) ;;
  emit (EvOpen connStr r) ;;
  ret r.
Definition Close (connStr : string) : M unit := emit (EvClose connStr).
Definition Ping (connStr : string) : M error :=
  r <- ask (fun w t => sql_ping w t connStr) ;;
  emit (EvPing connStr r) ;;
  ret r.
(** [db.QueryRow(query, args...).Scan(&b)] for a boolean column. *)
Definition QueryRowScan (connStr query : string) (args : list string) : M (result bool) :=
  r <- ask (fun w t => sql_query_bool w t connStr query args) ;;
  emit (EvQueryRow connStr query args r) ;;
  ret r.
Definition Exec (connStr query : string) (args : list string) : M error :=
  r <- ask (fun w t => sql_exec w t connStr query args) ;;
  emit (EvExec connStr query args r) ;;
  ret r.
End sql.

Module ioutil.
Definition WriteFile (path content : string) (perm : N) : M error :=
  r <- ask (fun w t => write_file w t path content perm) ;;
  emit (EvWriteFile path content perm r) ;;
  ret r.
End ioutil.

Module logger.
Definition Info (msg : string) : M unit := emit (EvLog INFO msg).
Definition Error (msg : string) : M unit := emit (EvLog ERROR msg).
Definition Success (msg : string) : M unit := emit (EvLog SUCCESS msg).
Definition Warning (msg : string) : M unit := emit (EvLog WARNING msg).
Definition Debug (msg : string) : M unit := emit (EvLog DEBUG msg).
End logger.

Definition Printf (format : string) (args : list string) : M unit :=
  emit (EvPrint (fmt.Sprintf format args)).

Definition Now : M Time := ask clock.

(** The double quote character, for the texts that contain it. *)
Definition dq : string := String (Ascii.ascii_of_nat 34) EmptyString.

(** ** The functions of [main.go] *)

Definition parseMigrationOptions (cmd : Flags) : option MigrationOptions * error :=
  let mode := mode cmd in
  let outputDir := output_dir cmd in
  let dryRun := dry_run cmd in
  let includeRoles := include_roles cmd in
  let noBackup := no_backup cmd in
  if negb (Str.eqb mode "direct") && negb (Str.eqb mode "export") then
    (None, Some "mode must be 'direct' or 'export'")
  else
    (Some {| Mode := mode;
             OutputDir := outputDir;
             CreateBackup := negb noBackup;
             BackupDir := filepath.Join [outputDir; "backup"];
             IncludeRoles := includeRoles;
             IncludeData := true;
             DryRun := dryRun |}, None).

Definition validModes : list string :=
  ["disable"; "require"; "verify-ca"; "verify-full"].

Fixpoint validateSSLMode_loop (sslMode : string) (modes : list string) : error :=
  match modes with
  | mode :: rest =>
      if Str.eqb sslMode mode then None else validateSSLMode_loop sslMode rest
  | [] => Some (fmt.Sprintf "must be one of: %s" [Str.join ", " validModes])
  end.

Definition validateSSLMode (sslMode : string) : error :=
  validateSSLMode_loop sslMode validModes.

Definition readPassword : M (string * error) :=
  r <- ask read_password ;;
  emit (EvReadPassword r) ;;
  match r with
  | Err e => ret (EmptyString, Some e)
  | Ok bytePassword =>
      emit (EvPrint (String (Ascii.ascii_of_nat 10) EmptyString)) ;;
      ret (bytePassword, None)
  end.

(** [reader.ReadString('\n')] on standard input. *)
Definition ReadString : M (string * error) :=
  r <- ask read_string ;;
  emit (EvReadString r) ;;
  match r with
  | Err e => ret (EmptyString, Some e)
  | Ok line => ret (line, None)
  end.

Definition getSourceConfig (cmd : Flags) : M (option DatabaseConfig * error) :=
  let sourceHost := source_host cmd in
  let sourcePort := source_port cmd in
  let sourceUser := source_user cmd in
  let sourceDB := source_db cmd in
  let sourceSSL := source_ssl cmd in
  match validateSSLMode sourceSSL with
  | Some err => ret (None, Some (fmt.Sprintf "invalid source SSL mode: %v" [err]))
  | None =>
      Printf "Enter password for source database (%s@%s): " [sourceUser; sourceHost] ;;
      '(sourcePassword, err) <- readPassword ;;
      match err with
      | Some err => ret (None, Some (fmt.Sprintf "failed to read source password: %v" [err]))
      | None =>
          ret (Some {| Host := sourceHost;
                       Port := sourcePort;
                       Username := sourceUser;
                       Password := sourcePassword;
                       Database := sourceDB;
                       SSLMode := sourceSSL |}, None)
      end
  end.

Definition getDestConfig (cmd : Flags) (sourceDBName : string)
  : M (option DatabaseConfig * error) :=
  let destHost := dest_host cmd in
  let destPort := dest_port cmd in
  let destUser := dest_user cmd in
  let destDB := dest_db cmd in
  let destSSL := dest_ssl cmd in
  match validateSSLMode destSSL with
  | Some err => ret (None, Some (fmt.Sprintf "invalid destination SSL mode: %v" [err]))
  | None =>
      Printf "Enter password for destination database (%s@%s): " [destUser; destHost] ;;
      '(destPassword, err) <- readPassword ;;
      match err with
      | Some err =>
          ret (None, Some (fmt.Sprintf "failed to read destination password: %v" [err]))
      | None =>
          let finish (destDB : string) : M (option DatabaseConfig * error) :=
            ret (Some {| Host := destHost;
                         Port := destPort;
                         Username := destUser;
                         Password := destPassword;
                         Database := destDB;
                         SSLMode := destSSL |}, None) in
          (* Ask for destination database name if not provided *)
          if Str.eqb destDB "" then
            Printf "
Destination database options:
" [] ;;
            Printf "1. Use same name as source (%s)
" [sourceDBName] ;;
            Printf "2. Use different name
" [] ;;
            emit (EvPrint "Choose option (1 or 2): ") ;;
            '(choice, err) <- ReadString ;;
            match err with
            | Some err => ret (None, Some (fmt.Sprintf "failed to read choice: %v" [err]))
            | None =>
                let choice := Str.trim_space choice in
                if Str.eqb choice "1" then finish sourceDBName
                else if Str.eqb choice "2" then
                  emit (EvPrint "Enter destination database name: ") ;;
                  '(destDB, err) <- ReadString ;;
                  match err with
                  | Some err =>
                      ret (None, Some (fmt.Sprintf "failed to read database name: %v" [err]))
                  | None => finish (Str.trim_space destDB)
                  end
                else ret (None, Some (fmt.Sprintf "invalid choice: %s" [choice]))
            end
          else finish destDB
      end
  end.

(** The connection string of the source validation: the source database
    itself. *)
Definition sourceConnStr (source : DatabaseConfig) : string :=
  fmt.Sprintf "host=%s port=%s user=%s password=%s dbname=%s sslmode=%s"
    [Host source; Port source; Username source; Password source;
     Database source; SSLMode source].

(** The connection string of the destination validation and of every
    administrative operation: the database [postgres] of the server. *)
Definition adminConnStr (config : DatabaseConfig) : string :=
  fmt.Sprintf "host=%s port=%s user=%s password=%s dbname=postgres sslmode=%s"
    [Host config; Port config; Username config; Password config; SSLMode config].

Definition validateSourceConnection (source : option DatabaseConfig) : M error :=
  fn "validateSourceConnection" (
    logger.Info "Validating source database connection..." ;;
    source <- deref source ;;
    let sourceConnStr := sourceConnStr source in
    err <- sql.Open sourceConnStr ;;
    match err with
    | Some err => ret (Some (fmt.Sprintf "failed to connect to source database: %v" [err]))
    | None =>
        defer (sql.Close sourceConnStr) (
          err <- sql.Ping sourceConnStr ;;
          match err with
          | Some err => ret (Some (fmt.Sprintf "source database ping failed: %v" [err]))
          | None =>
              logger.Info "Source database connection successful" ;;
              ret None
          end)
    end).

Definition validateConnections (source dest : option DatabaseConfig) : M error :=
  fn "validateConnections" (
    (* Validate source *)
    err <- validateSourceConnection source ;;
    match err with
    | Some err => ret (Some err)
    | None =>
        (* Validate destination server *)
        logger.Info "Validating destination database connection..." ;;
        dest <- deref dest ;;
        let destConnStr := adminConnStr dest in
        err <- sql.Open destConnStr ;;
        match err with
        | Some err =>
            ret (Some (fmt.Sprintf "failed to connect to destination server: %v" [err]))
        | None =>
            defer (sql.Close destConnStr) (
              err <- sql.Ping destConnStr ;;
              match err with
              | Some err =>
                  ret (Some (fmt.Sprintf "destination server ping failed: %v" [err]))
              | None =>
                  logger.Info "Destination server connection successful" ;;
                  ret None
              end)
        end
    end).

Fixpoint createDirectories_loop (dirs : list string) : M error :=
  match dirs with
  | dir :: rest =>
      err <- os.MkdirAll dir ;;
      match err with
      | Some err => ret (Some err)
      | None => createDirectories_loop rest
      end
  | [] => ret None
  end.

Definition createDirectories (options : MigrationOptions) : M error :=
  fn "createDirectories" (
    let dirs := [OutputDir options] in
    let dirs := if CreateBackup options then dirs ++ [BackupDir options] else dirs in
    createDirectories_loop dirs).

(** Helper function to remove string from slice *)
Fixpoint removeFromSlice_loop (slice : list string) (item : string) (result : list string)
  : list string :=
  match slice with
  | s :: rest =>
      if negb (Str.eqb s item) then removeFromSlice_loop rest item (result ++ [s])
      else removeFromSlice_loop rest item result
  | [] => result
  end.

Definition removeFromSlice (slice : list string) (item : string) : list string :=
  removeFromSlice_loop slice item [].

(** The two multi-line texts of the source, character by character. *)
Definition terminateQuery : string :=
  "
		SELECT pg_terminate_backend(pid)
		FROM pg_stat_activity
		WHERE datname = $1 AND pid <> pg_backend_pid()".

Definition rollbackTemplate : string :=
  "#!/bin/bash
# Rollback script generated by pg-schema-migrate
# Created: %s
# Database: %s@%s:%s

echo " +:+ dq +:+ "WARNING: This will restore the database to its previous state!" +:+ dq +:+ "
echo " +:+ dq +:+ "This will DROP the current database and restore from backup." +:+ dq +:+ "
read -p " +:+ dq +:+ "Are you sure you want to continue? (yes/no): " +:+ dq +:+ " confirm

if [ " +:+ dq +:+ "$confirm" +:+ dq +:+ " = " +:+ dq +:+ "yes" +:+ dq +:+ " ]; then
    echo " +:+ dq +:+ "Starting rollback..." +:+ dq +:+ "

    # Set password (you'll need to enter it)
    export PGPASSWORD=" +:+ dq +:+ dq +:+ "
    export PGSSLMODE=" +:+ dq +:+ "%s" +:+ dq +:+ "

    # Drop current database
    echo " +:+ dq +:+ "Dropping current database..." +:+ dq +:+ "
    psql -h %s -p %s -U %s -d postgres -c " +:+ dq +:+ "DROP DATABASE IF EXISTS %s;" +:+ dq +:+ "

    # Create database
    echo " +:+ dq +:+ "Creating database..." +:+ dq +:+ "
    psql -h %s -p %s -U %s -d postgres -c " +:+ dq +:+ "CREATE DATABASE %s;" +:+ dq +:+ "

    # Restore from backup
    echo " +:+ dq +:+ "Restoring from backup..." +:+ dq +:+ "
    psql -h %s -p %s -U %s -d %s -f %s

    echo " +:+ dq +:+ "Rollback completed!" +:+ dq +:+ "
else
    echo " +:+ dq +:+ "Rollback cancelled." +:+ dq +:+ "
fi
".

(** The arguments of the [pg_dump] that exports the schema. *)
Definition exportArgs (config : DatabaseConfig) (outputFile : string)
    (options : MigrationOptions) : list string :=
  (* Build pg_dump command for schema only *)
  let args := [
    "-h"; Host config;
    "-p"; Port config;
    "-U"; Username config;
    "-d"; Database config;
    "-f"; outputFile;
    "--schema-only";   (* Schema only, no data *)
    "--no-owner";      (* Don't include ownership commands *)
    "--no-privileges"; (* Don't include privilege commands (unless explicitly wanted) *)
    "--verbose";
    "--no-password"
  ] in
  (* Include roles and privileges if requested *)
  if IncludeRoles options then removeFromSlice args "--no-privileges" else args.

Definition exportSchema (config : option DatabaseConfig) (outputFile : string)
    (options : MigrationOptions) : M error :=
  fn "exportSchema" (
    config <- deref config ;;
    logger.Info (fmt.Sprintf "Exporting schema from database '%s'..." [Database config]) ;;
    (* Set environment variables *)
    os.Setenv "PGPASSWORD" (Password config) ;;
    defer (os.Unsetenv "PGPASSWORD") (
      os.Setenv "PGSSLMODE" (SSLMode config) ;;
      defer (os.Unsetenv "PGSSLMODE") (
        err <- exec.Run "pg_dump" (exportArgs config outputFile options) ;;
        match err with
        | Some err => ret (Some (fmt.Sprintf "pg_dump failed: %v" [err]))
        | None =>
            logger.Info "Schema export completed" ;;
            ret None
        end))).

Definition databaseExists (config : option DatabaseConfig) : M (bool * error) :=
  fn_ "databaseExists" snd (
    config <- deref config ;;
    let connStr := adminConnStr config in
    err <- sql.Open connStr ;;
    match err with
    | Some err => ret (false, Some err)
    | None =>
        defer (sql.Close connStr) (
          let query := "SELECT EXISTS(SELECT 1 FROM pg_database WHERE datname = $1)" in
          r <- sql.QueryRowScan connStr query [Database config] ;;
          match r with
          | Ok exists_ => ret (exists_, None)
          | Err err => ret (false, Some err)
          end)
    end).

(** The arguments of the [pg_dump] that backs the destination up. *)
Definition backupArgs (config : DatabaseConfig) (backupFile : string)
    (options : MigrationOptions) : list string :=
  let args := [
    "-h"; Host config;
    "-p"; Port config;
    "-U"; Username config;
    "-d"; Database config;
    "-f"; backupFile;
    "--verbose";
    "--no-password"
  ] in
  (* Include data in backup for complete rollback capability *)
  if IncludeData options then args (* Full backup including data *)
  else args ++ ["--schema-only"].

Definition createDestinationBackup (config : option DatabaseConfig) (backupFile : string)
    (options : MigrationOptions) : M error :=
  fn "createDestinationBackup" (
    (* Check if destination database exists *)
    '(exists_, err) <- databaseExists config ;;
    match err with
    | Some err => ret (Some err)
    | None =>
        if negb exists_ then
          logger.Info "Destination database doesn't exist, skipping backup" ;;
          ret None
        else
          config <- deref config ;;
          logger.Info (fmt.Sprintf "Creating backup of destination database '%s'..."
                         [Database config]) ;;
          (* Set environment variables *)
          os.Setenv "PGPASSWORD" (Password config) ;;
          defer (os.Unsetenv "PGPASSWORD") (
            os.Setenv "PGSSLMODE" (SSLMode config) ;;
            defer (os.Unsetenv "PGSSLMODE") (
              err <- exec.Run "pg_dump" (backupArgs config backupFile options) ;;
              match err with
              | Some err => ret (Some (fmt.Sprintf "backup pg_dump failed: %v" [err]))
              | None =>
                  logger.Info "Backup created successfully" ;;
                  ret None
              end))
    end).

Definition dropDatabaseIfExists (config : option DatabaseConfig) : M error :=
  fn "dropDatabaseIfExists" (
    '(exists_, err) <- databaseExists config ;;
    match err with
    | Some err => ret (Some err)
    | None =>
        if negb exists_ then
          logger.Info "Destination database doesn't exist, skipping drop" ;;
          ret None
        else
          config <- deref config ;;
          logger.Info (fmt.Sprintf "Dropping existing database '%s'" [Database config]) ;;
          let connStr := adminConnStr config in
          err <- sql.Open connStr ;;
          match err with
          | Some err => ret (Some err)
          | None =>
              defer (sql.Close connStr) (
                (* Terminate connections to the database *)
                err <- sql.Exec connStr terminateQuery [Database config] ;;
                match err with
                | Some err =>
                    logger.Warning
                      (fmt.Sprintf "Could not terminate all connections: %v" [err])
                | None => ret tt
                end ;;
                (* Drop the database - use quoted identifier to preserve case *)
                let dropQuery :=
                  fmt.Sprintf ("DROP DATABASE " +:+ dq +:+ "%s" +:+ dq) [Database config] in
                err <- sql.Exec connStr dropQuery [] ;;
                match err with
                | Some err => ret (Some err)
                | None =>
                    logger.Info "Database dropped successfully" ;;
                    ret None
                end)
          end
    end).

Definition createDatabase (config : option DatabaseConfig) : M error :=
  fn "createDatabase" (
    config <- deref config ;;
    logger.Info (fmt.Sprintf "Creating destination database '%s'..." [Database config]) ;;
    let connStr := adminConnStr config in
    err <- sql.Open connStr ;;
    match err with
    | Some err => ret (Some err)
    | None =>
        defer (sql.Close connStr) (
          (* Create database - use quoted identifier to preserve case *)
          let createQuery :=
            fmt.Sprintf ("CREATE DATABASE " +:+ dq +:+ "%s" +:+ dq) [Database config] in
          err <- sql.Exec connStr createQuery [] ;;
          match err with
          | Some err => ret (Some err)
          | None =>
              logger.Info "Database created successfully" ;;
              ret None
          end)
    end).

Definition recreateDestinationDatabase (config : option DatabaseConfig) : M error :=
  fn "recreateDestinationDatabase" (
    (* Drop database if exists *)
    err <- dropDatabaseIfExists config ;;
    match err with
    | Some err => ret (Some err)
    | None =>
        (* Create database *)
        err <- createDatabase config ;;
        match err with
        | Some err => ret (Some err)
        | None => ret None
        end
    end).

(** The arguments of the [psql] that applies the schema. *)
Definition applyArgs (config : DatabaseConfig) (schemaFile : string) : list string :=
  ["-h"; Host config;
   "-p"; Port config;
   "-U"; Username config;
   "-d"; Database config;
   "-f"; schemaFile;
   "--no-password"].

Definition applySchema (config : option DatabaseConfig) (schemaFile : string) : M error :=
  fn "applySchema" (
    config <- deref config ;;
    logger.Info (fmt.Sprintf "Applying schema to destination database '%s'..."
                   [Database config]) ;;
    (* Set environment variables *)
    os.Setenv "PGPASSWORD" (Password config) ;;
    defer (os.Unsetenv "PGPASSWORD") (
      os.Setenv "PGSSLMODE" (SSLMode config) ;;
      defer (os.Unsetenv "PGSSLMODE") (
        err <- exec.Run "psql" (applyArgs config schemaFile) ;;
        match err with
        | Some err => ret (Some (fmt.Sprintf "psql schema application failed: %v" [err]))
        | None =>
            logger.Info "Schema applied successfully" ;;
            ret None
        end))).

(** The text of the rollback script. *)
Definition rollbackScriptText (created : string) (config : DatabaseConfig)
    (backupFile : string) : string :=
  fmt.Sprintf rollbackTemplate [
    created;
    Username config; Host config; Port config;
    SSLMode config;
    Host config; Port config; Username config; Database config;
    Host config; Port config; Username config; Database config;
    Host config; Port config; Username config; Database config; backupFile].

Definition generateRollbackScript (config : option DatabaseConfig) (backupFile : string)
    (options : MigrationOptions) : M error :=
  fn "generateRollbackScript" (
    if negb (CreateBackup options) || Str.eqb backupFile "" then ret None
    else
      let rollbackScript := filepath.Join [OutputDir options; "rollback.sh"] in
      logger.Info (fmt.Sprintf "Generating rollback script: %s" [rollbackScript]) ;;
      now <- Now ;;
      config <- deref config ;;
      let script := rollbackScriptText (time.format_datetime now) config backupFile in
      err <- ioutil.WriteFile rollbackScript script 493 (* 0755 *) ;;
      match err with
      | Some err => ret (Some err)
      | None =>
          logger.Success (fmt.Sprintf "Rollback script created: %s" [rollbackScript]) ;;
          ret None
      end).

Definition performSchemaMigration (source dest : option DatabaseConfig)
    (options : MigrationOptions) : M error :=
  fn "performSchemaMigration" (
    now <- Now ;;
    let timestamp := time.format_compact now in
    (* Create output directories *)
    err <- createDirectories options ;;
    match err with
    | Some err => ret (Some (fmt.Sprintf "failed to create directories: %v" [err]))
    | None =>
        (* Step 1: Export source schema *)
        src <- deref source ;;
        let schemaFile := filepath.Join [OutputDir options;
          fmt.Sprintf "schema_%s_%s.sql" [Database src; timestamp]] in
        err <- exportSchema source schemaFile options ;;
        match err with
        | Some err => ret (Some (fmt.Sprintf "failed to export schema: %v" [err]))
        | None =>
            (* Step 2: Create backup of destination (if exists and backup enabled) *)
            backupFile <-
              (if CreateBackup options then
                 dst <- deref dest ;;
                 let backupFile := filepath.Join [BackupDir options;
                   fmt.Sprintf "backup_%s_%s.sql" [Database dst; timestamp]] in
                 err <- createDestinationBackup dest backupFile options ;;
                 match err with
                 | Some err =>
                     logger.Warning
                       (fmt.Sprintf "Backup creation failed (continuing): %v" [err])
                 | None => ret tt
                 end ;;
                 ret backupFile
               else ret EmptyString) ;;
            if DryRun options then
              logger.Info "DRY RUN MODE - showing what would be done:" ;;
              dst <- deref dest ;;
              logger.Info (fmt.Sprintf "1. Drop and recreate database: %s" [Database dst]) ;;
              logger.Info (fmt.Sprintf "2. Apply schema from: %s" [schemaFile]) ;;
              (if CreateBackup options && negb (Str.eqb backupFile "") then
                 logger.Info (fmt.Sprintf "3. Backup created at: %s" [backupFile])
               else ret tt) ;;
              generateRollbackScript dest backupFile options
            else
              (* Step 3: Drop and recreate destination database *)
              err <- recreateDestinationDatabase dest ;;
              match err with
              | Some err =>
                  ret (Some (fmt.Sprintf "failed to recreate destination database: %v" [err]))
              | None =>
                  (* Step 4: Apply schema to destination *)
                  err <- applySchema dest schemaFile ;;
                  match err with
                  | Some err => ret (Some (fmt.Sprintf "failed to apply schema: %v" [err]))
                  | None =>
                      (* Step 5: Generate rollback script *)
                      err <- generateRollbackScript dest backupFile options ;;
                      match err with
                      | Some err =>
                          logger.Warning
                            (fmt.Sprintf "Failed to generate rollback script: %v" [err])
                      | None => ret tt
                      end ;;
                      ret None
                  end
              end
        end
    end).

Definition runSchemaMigration (cmd : Flags) : M unit :=
  fn_ "runSchemaMigration" (fun _ => None) (
    logger.Info "Starting PostgreSQL schema migration..." ;;
    (* Parse migration options *)
    match parseMigrationOptions cmd with
    | (_, Some err) =>
        logger.Error (fmt.Sprintf "Failed to parse options: %v" [err]) ;;
        os.Exit 1
    | (options, None) =>
        (* Get source configuration *)
        '(sourceConfig, err) <- getSourceConfig cmd ;;
        match err with
        | Some err =>
            logger.Error (fmt.Sprintf "Failed to get source config: %v" [err]) ;;
            os.Exit 1
        | None =>
            (* Get destination configuration (only for direct mode) *)
            options <- deref options ;;
            destConfig <-
              (if Str.eqb (Mode options) "direct" then
                 src <- deref sourceConfig ;;
                 '(destConfig, err) <- getDestConfig cmd (Database src) ;;
                 match err with
                 | Some err =>
                     logger.Error
                       (fmt.Sprintf "Failed to get destination config: %v" [err]) ;;
                     os.Exit 1
                 | None =>
                     (* Validate connections *)
                     err <- validateConnections sourceConfig destConfig ;;
                     match err with
                     | Some err =>
                         logger.Error
                           (fmt.Sprintf "Connection validation failed: %v" [err]) ;;
                         os.Exit 1
                     | None => ret destConfig
                     end
                 end
               else
                 (* For export mode, only validate source *)
                 err <- validateSourceConnection sourceConfig ;;
                 match err with
                 | Some err =>
                     logger.Error
                       (fmt.Sprintf "Source connection validation failed: %v" [err]) ;;
                     os.Exit 1
                 | None => ret None
                 end) ;;
            (* Perform schema migration *)
            err <- performSchemaMigration sourceConfig destConfig options ;;
            match err with
            | Some err =>
                logger.Error (fmt.Sprintf "Schema migration failed: %v" [err]) ;;
                os.Exit 1
            | None =>
                logger.Success "Schema migration completed successfully!" ;;
                ret tt
            end
        end
    end).

(** A run of the program: [runSchemaMigration] on an empty trace, in the
    environment the process inherited. *)
Definition start (env : gmap string string) : State :=
  {| environ := env; trace := [] |}.

Definition run (w : World) (cmd : Flags) (env : gmap string string) : Outcome unit * State :=
  runSchemaMigration cmd w (start env).

(** * Reasoning about runs *)

(** The events a computation adds to the trace. *)
Definition events_of {A} (m : M A) (w : World) (s : State) : list Event :=
  drop (length (trace s)) (trace (m w s).2).

(** ** A weakest-precondition calculus

    [wp m w env tr Q]: run from environment [env] and trace [tr], the
    computation [m] only appends to the trace, and its outcome [o], the
    events [evs] it appends and the environment [env'] it leaves satisfy
    [Q o evs env']. *)
Definition post (A : Type) : Type :=
  Outcome A -> list Event -> gmap string string -> Prop.

Definition wp {A} (m : M A) (w : World) (env : gmap string string) (tr : list Event)
    (Q : post A) : Prop :=
  exists evs,
    trace (m w (mkState env tr)).2 = tr ++ evs /\
    Q (m w (mkState env tr)).1 evs (environ (m w (mkState env tr)).2).

(** The postcondition that [bind m k] hands to [m]. *)
Definition wp_k {A B} (k : A -> M B) (w : World) (tr : list Event) (Q : post B) : post A :=
  fun o evs1 env1 =>
    match o with
    | Val a => wp (k a) w env1 (tr ++ evs1) (fun o' evs2 env2 => Q o' (evs1 ++ evs2) env2)
    | Panic => Q Panic evs1 env1
    | Exit c => Q (Exit c) evs1 env1
    end.

(** The postcondition that [defer d body] hands to [body]. *)
Definition wp_d {A} (d : M unit) (w : World) (tr : list Event) (Q : post A) : post A :=
  fun o evs1 env1 =>
    match o with
    | Exit c => Q (Exit c) evs1 env1
    | o => wp d w env1 (tr ++ evs1) (fun _ evs2 env2 => Q o (evs1 ++ evs2) env2)
    end.

(** The postcondition that a function marked by [fn_] hands to its body. *)
Definition wp_f {A} (name : string) (err_of : A -> error) (Q : post A) : post A :=
  fun o mid env1 =>
    match o with
    | Val r => Q (Val r) (EvCall name :: mid ++ [EvReturn name (err_of r)]) env1
    | Panic => Q Panic (EvCall name :: mid) env1
    | Exit c => Q (Exit c) (EvCall name :: mid) env1
    end.

(** ** Footprints: which events a function of [main.go] can add *)

Inductive Kind :=
| KLog | KPrint | KRead | KMkdir | KEnv | KDump | KPsql | KRun
| KConn | KQuery | KExec | KWrite.

#[global] Instance Kind_eq_dec : EqDecision Kind.
Proof. solve_decision. Defined.

Definition kind_of (e : Event) : option Kind :=
  match e with
  | EvCall _ | EvReturn _ _ => None
  | EvLog _ _ => Some KLog
  | EvPrint _ => Some KPrint
  | EvReadPassword _ | EvReadString _ => Some KRead
  | EvMkdirAll _ _ => Some KMkdir
  | EvSetenv _ _ | EvUnsetenv _ => Some KEnv
  | EvRun cmd _ _ _ =>
      Some (if Str.eqb cmd "pg_dump" then KDump
            else if Str.eqb cmd "psql" then KPsql else KRun)
  | EvOpen _ _ | EvClose _ | EvPing _ _ => Some KConn
  | EvQueryRow _ _ _ _ => Some KQuery
  | EvExec _ _ _ _ => Some KExec
  | EvWriteFile _ _ _ _ => Some KWrite
  end.

(** The functions whose call and return markers may occur, and the kinds
    of calls that leave the process. *)
Record Footprint := mkFootprint {
  fp_names : list string;
  fp_kinds : list Kind
}.

Definition inside (F : Footprint) (e : Event) : bool :=
  match e with
  | EvCall n | EvReturn n _ => bool_decide (n ∈ fp_names F)
  | _ => match kind_of e with
         | Some k => bool_decide (k ∈ fp_kinds F)
         | None => false
         end
  end.

(** What a call of the function [name] adds to the trace: its call marker,
    events inside the footprint [F], and its return marker unless it
    panics.  No function below [runSchemaMigration] exits the process. *)
Definition Called {A} (name : string) (F : Footprint) (err_of : A -> error)
    (o : Outcome A) (evs : list Event) : Prop :=
  match o with
  | Val r => exists mid, evs = EvCall name :: mid ++ [EvReturn name (err_of r)] /\
                         Forall (fun e => inside F e) mid
  | Panic => exists mid, evs = EvCall name :: mid /\ Forall (fun e => inside F e) mid
  | Exit _ => False
  end.

Definition fp_createDirectories : Footprint := mkFootprint [] [KMkdir].
Definition fp_exportSchema : Footprint := mkFootprint [] [KLog; KEnv; KDump].
Definition fp_databaseExists : Footprint := mkFootprint [] [KConn; KQuery].
Definition fp_createDestinationBackup : Footprint :=
  mkFootprint ["databaseExists"] [KConn; KQuery; KLog; KEnv; KDump].
Definition fp_dropDatabaseIfExists : Footprint :=
  mkFootprint ["databaseExists"] [KConn; KQuery; KLog; KExec].
Definition fp_createDatabase : Footprint := mkFootprint [] [KLog; KConn; KExec].
Definition fp_recreateDestinationDatabase : Footprint :=
  mkFootprint ["dropDatabaseIfExists"; "createDatabase"; "databaseExists"]
              [KConn; KQuery; KLog; KExec].
Definition fp_applySchema : Footprint := mkFootprint [] [KLog; KEnv; KPsql].
Definition fp_generateRollbackScript : Footprint := mkFootprint [] [KLog; KWrite].
Definition fp_validateSourceConnection : Footprint := mkFootprint [] [KLog; KConn].
Definition fp_validateConnections : Footprint :=
  mkFootprint ["validateSourceConnection"] [KLog; KConn].

(** The stronger summary for a call that cannot panic (its configuration
    pointer is not nil): the function returns. *)
Definition Returned {A} (name : string) (F : Footprint) (err_of : A -> error)
    (o : Outcome A) (evs : list Event) : Prop :=
  exists r mid, o = Val r /\
                evs = EvCall name :: mid ++ [EvReturn name (err_of r)] /\
                Forall (fun e => inside F e) mid.

(** ** Properties of traces *)

Definition is_call (name : string) (e : Event) : bool :=
  match e with
  | EvCall n => Str.eqb n name
  | _ => false
  end.

(** The function [name] returned [nil]. *)
Definition is_success (name : string) (e : Event) : bool :=
  match e with
  | EvReturn n err => Str.eqb n name && match err with None => true | Some _ => false end
  | _ => false
  end.

(** Every event that satisfies [b] comes after an event that satisfies [a]. *)
Definition preceded_by (a b : Event -> bool) (evs : list Event) : Prop :=
  forall l1 e l2, evs = l1 ++ e :: l2 -> b e -> Exists (fun e' => a e') l1.

(** Every event [e] for which [f] prescribes a continuation is
    immediately followed by that continuation. *)
Definition always_next (f : Event -> option (list Event)) (evs : list Event) : Prop :=
  forall l1 e l2 pat, evs = l1 ++ e :: l2 -> f e = Some pat ->
                      exists l3, l2 = pat ++ l3.

(** The destination database as the statements executed so far leave it:
    a successful [DROP DATABASE] makes it absent until a successful
    [CREATE DATABASE]. *)
Inductive DestState := Untouched | Dropped | Created.

Definition dest_step (st : DestState) (e : Event) : DestState :=
  match e with
  | EvExec _ query _ None =>
      if String.prefix "DROP DATABASE " query then Dropped
      else if String.prefix "CREATE DATABASE " query then Created
      else st
  | _ => st
  end.

Definition dest_state (evs : list Event) : DestState :=
  fold_left dest_step evs Untouched.

(** The destructive part of the workflow: the calls of drop, create,
    recreate and apply, every statement executed on the server and every
    run of [psql]. *)
Definition fp_destructive : Footprint :=
  mkFootprint ["recreateDestinationDatabase"; "dropDatabaseIfExists";
               "createDatabase"; "applySchema"] [KExec; KPsql].

Definition destructive (e : Event) : bool := inside fp_destructive e.

(** [preceded_by] with a flag telling whether an [a] event was already
    seen before the list starts. *)
Definition preceded_from (seen : bool) (a b : Event -> bool) (evs : list Event) : Prop :=
  forall l1 e l2, evs = l1 ++ e :: l2 -> b e -> seen \/ Exists (fun e' => a e') l1.

(** The continuation [pat] is prescribed after every event satisfying [a]. *)
Definition after (a : Event -> bool) (pat : list Event) (e : Event) : option (list Event) :=
  if a e then Some pat else None.

Definition fp_prompt : Footprint := mkFootprint [] [KPrint; KRead].

(** What reading a configuration adds: the function returns a pointer
    and an error, the pointer is not nil when the error is, and the
    events are prompts and reads. *)
Definition ConfigRead (o : Outcome (option DatabaseConfig * error)) (evs : list Event)
  : Prop :=
  exists cfg err, o = Val (cfg, err) /\
                  (err = None -> exists c, cfg = Some c) /\
                  Forall (fun e => inside fp_prompt e) evs.

(** The events of a run of the program. *)
Definition run_events (w : World) (cmd : Flags) (env : gmap string string) : list Event :=
  trace (run w cmd env).2.

(** ** Concrete worlds and command lines *)

(** The flags with the defaults that [main] registers. *)
Definition default_flags (sourceDB : string) : Flags :=
  {| source_host := "localhost"; source_port := "5432"; source_user := "postgres";
     source_db := sourceDB; source_ssl := "require";
     dest_host := "localhost"; dest_port := "5432"; dest_user := "postgres";
     dest_db := EmptyString; dest_ssl := "require";
     mode := "direct"; output_dir := "./schema_migration"; dry_run := false;
     include_roles := false; no_backup := false |}.

(** [--source-db shop_prod --dest-db shop_staging --output-dir ./out] *)
Definition flags_direct : Flags :=
  {| source_host := "localhost"; source_port := "5432"; source_user := "postgres";
     source_db := "shop_prod"; source_ssl := "require";
     dest_host := "localhost"; dest_port := "5432"; dest_user := "postgres";
     dest_db := "shop_staging"; dest_ssl := "require";
     mode := "direct"; output_dir := "./out"; dry_run := false;
     include_roles := false; no_backup := false |}.

(** [--mode export --source-db reports --output-dir ./out] *)
Definition flags_export : Flags :=
  {| source_host := "localhost"; source_port := "5432"; source_user := "postgres";
     source_db := "reports"; source_ssl := "require";
     dest_host := "localhost"; dest_port := "5432"; dest_user := "postgres";
     dest_db := EmptyString; dest_ssl := "require";
     mode := "export"; output_dir := "./out"; dry_run := false;
     include_roles := false; no_backup := false |}.

Definition noon : Time := mkTime 2025 1 2 3 4 5.

(** Every collaborator succeeds and the destination database exists. *)
Definition happy : World :=
  {| clock := fun _ => noon;
     read_password := fun _ => Ok "secret";
     read_string := fun _ => Ok "1";
     mkdir_all := fun _ _ => None;
     run_command := fun _ _ _ _ => None;
     sql_open := fun _ _ => None;
     sql_ping := fun _ _ => None;
     sql_query_bool := fun _ _ _ _ => Ok true;
     sql_exec := fun _ _ _ _ => None;
     write_file := fun _ _ _ _ => None |}.

(** Every event that satisfies [a] is followed, sooner or later, by an
    event that satisfies [b]. *)
Definition always_later (a b : Event -> bool) (evs : list Event) : Prop :=
  forall l1 e l2, evs = l1 ++ e :: l2 -> a e -> Exists (fun e' => b e') l2.

Definition with_dry_run (cmd : Flags) : Flags :=
  {| source_host := source_host cmd; source_port := source_port cmd;
     source_user := source_user cmd; source_db := source_db cmd;
     source_ssl := source_ssl cmd;
     dest_host := dest_host cmd; dest_port := dest_port cmd;
     dest_user := dest_user cmd; dest_db := dest_db cmd; dest_ssl := dest_ssl cmd;
     mode := mode cmd; output_dir := output_dir cmd; dry_run := true;
     include_roles := include_roles cmd; no_backup := no_backup cmd |}.

(** The events of kind [k] in a trace. *)
Definition of_kind (k : Kind) (evs : list Event) : list Event :=
  List.filter (fun e => bool_decide (kind_of e = Some k)) evs.

(** What a run may do before it opens any connection or starts any tool:
    log, prompt and read. *)
Definition fp_offline : Footprint :=
  mkFootprint ["runSchemaMigration"] [KLog; KPrint; KRead].

(** [--source-ssl foo] *)
Definition flags_bad_ssl : Flags :=
  {| source_host := "localhost"; source_port := "5432"; source_user := "postgres";
     source_db := "shop_prod"; source_ssl := "foo";
     dest_host := "localhost"; dest_port := "5432"; dest_user := "postgres";
     dest_db := "shop_staging"; dest_ssl := "require";
     mode := "direct"; output_dir := "./out"; dry_run := false;
     include_roles := false; no_backup := false |}.

(** How a failure inside [recreateDestinationDatabase] is reported: the
    error that [dropDatabaseIfExists] or [createDatabase] returned is
    returned unchanged by [recreateDestinationDatabase], wrapped once by
    [performSchemaMigration] and logged by [runSchemaMigration]. *)
Definition recreate_failure_report (e : Event) : option (list Event) :=
  match e with
  | EvReturn n err =>
      if Str.eqb n "dropDatabaseIfExists" || Str.eqb n "createDatabase" then
        match err with
        | Some err =>
            Some [EvReturn "recreateDestinationDatabase" (Some err);
                  EvReturn "performSchemaMigration"
                    (Some (fmt.Sprintf "failed to recreate destination database: %v" [err]));
                  EvLog ERROR
                    (fmt.Sprintf "Schema migration failed: %v"
                       [fmt.Sprintf "failed to recreate destination database: %v" [err]])]
        | None => None
        end
      else None
  | _ => None
  end.

(** What the operator is told went wrong: the warnings and errors logged. *)
Definition reports (evs : list Event) : list Event :=
  List.filter (fun e => match e with
                        | EvLog ERROR _ | EvLog WARNING _ => true
                        | _ => false
                        end) evs.

(** The server refuses every statement that starts with [stmt]. *)
Definition refusing (stmt : string) : World :=
  {| clock := fun _ => noon;
     read_password := fun _ => Ok "secret";
     read_string := fun _ => Ok "1";
     mkdir_all := fun _ _ => None;
     run_command := fun _ _ _ _ => None;
     sql_open := fun _ _ => None;
     sql_ping := fun _ _ => None;
     sql_query_bool := fun _ _ _ _ => Ok true;
     sql_exec := fun _ _ query _ =>
       if String.prefix stmt query then Some "permission denied" else None;
     write_file := fun _ _ _ _ => None |}.

(** What follows a failed destination backup in a run that is not a dry
    run: the warning, and then the recreation. *)
Definition backup_failure_continues (e : Event) : option (list Event) :=
  match e with
  | EvReturn n err =>
      if Str.eqb n "createDestinationBackup" then
        match err with
        | Some err =>
            Some [EvLog WARNING
                    (fmt.Sprintf "Backup creation failed (continuing): %v" [err]);
                  EvCall "recreateDestinationDatabase"]
        | None => None
        end
      else None
  | _ => None
  end.

(** Every event that satisfies [a] is followed by events that satisfy [P]. *)
Definition always_followed (a : Event -> bool) (P : list Event -> Prop)
    (evs : list Event) : Prop :=
  forall l1 e l2, evs = l1 ++ e :: l2 -> a e -> P l2.

(** What follows the call of [createDestinationBackup] when the
    destination database does not exist: the existence check with the
    answer [false], the log line, the return of [nil] (and in between no
    run of a tool), and then the call of the recreation. *)
Definition skips_backup_then_recreates (l : list Event) : Prop :=
  exists connStr query args rest,
    l = [EvCall "databaseExists";
         EvOpen connStr None;
         EvQueryRow connStr query args (Ok false);
         EvClose connStr;
         EvReturn "databaseExists" None;
         EvLog INFO "Destination database doesn't exist, skipping backup";
         EvReturn "createDestinationBackup" None;
         EvCall "recreateDestinationDatabase"] ++ rest.

(** The dump of the destination fails; the schema export succeeds. *)
Definition failing_backup : World :=
  {| clock := fun _ => noon;
     read_password := fun _ => Ok "secret";
     read_string := fun _ => Ok "1";
     mkdir_all := fun _ _ => None;
     run_command := fun _ cmd args _ =>
       if Str.eqb cmd "pg_dump" && negb (bool_decide ("--schema-only" ∈ args))
       then Some "exit status 1" else None;
     sql_open := fun _ _ => None;
     sql_ping := fun _ _ => None;
     sql_query_bool := fun _ _ _ _ => Ok true;
     sql_exec := fun _ _ _ _ => None;
     write_file := fun _ _ _ _ => None |}.

(** The destination database does not exist. *)
Definition absent : World :=
  {| clock := fun _ => noon;
     read_password := fun _ => Ok "secret";
     read_string := fun _ => Ok "1";
     mkdir_all := fun _ _ => None;
     run_command := fun _ _ _ _ => None;
     sql_open := fun _ _ => None;
     sql_ping := fun _ _ => None;
     sql_query_bool := fun _ _ _ _ => Ok false;
     sql_exec := fun _ _ _ _ => None;
     write_file := fun _ _ _ _ => None |}.

(** ** Credentials *)

Definition with_password (p : string) (c : DatabaseConfig) : DatabaseConfig :=
  {| Host := Host c; Port := Port c; Username := Username c; Password := p;
     Database := Database c; SSLMode := SSLMode c |}.

Definition with_database (d : string) (c : DatabaseConfig) : DatabaseConfig :=
  {| Host := Host c; Port := Port c; Username := Username c; Password := Password c;
     Database := d; SSLMode := SSLMode c |}.


Definition is_tool_run (e : Event) : bool :=
  match e with
  | EvRun _ _ _ _ => true
  | _ => false
  end.

(** ** Connections *)

(** The connection string of an event that uses a connection. *)
Definition conn_of (e : Event) : option string :=
  match e with
  | EvOpen c _ | EvClose c | EvPing c _ | EvQueryRow c _ _ _ | EvExec c _ _ _ => Some c
  | _ => None
  end.

(** The event uses no connection other than those of [cs]. *)
Definition connects_only (cs : list string) (e : Event) : Prop :=
  match conn_of e with
  | Some c => c ∈ cs
  | None => True
  end.

Definition opens (c : string) (e : Event) : bool :=
  match e with
  | EvOpen c' _ => Str.eqb c' c
  | _ => false
  end.

(** ** The rollback script *)

(** The number of arguments that [fmt.Sprintf] prints for a format. *)
Fixpoint verbs (format : string) : nat :=
  match format with
  | EmptyString => 0
  | String a rest =>
      if fmt.is_char 37 a then
        match rest with
        | String v rest' =>
            if fmt.is_char 115 v || fmt.is_char 118 v then S (verbs rest')
            else verbs rest'
        | EmptyString => 0
        end
      else verbs rest
  end.

(** ** Prompts *)

(** The lines read from standard input and the passwords read from the
    terminal, in the order they were read. *)
Definition lines_read (evs : list Event) : list (result string) :=
  omap (fun e => match e with EvReadString r => Some r | _ => None end) evs.

Definition passwords_read (evs : list Event) : list (result string) :=
  omap (fun e => match e with EvReadPassword r => Some r | _ => None end) evs.

(** What [getSourceConfig] returns, in terms of the flags and of what it
    read. *)
Definition source_config_read (cmd : Flags) (o : Outcome (option DatabaseConfig * error))
    (evs : list Event) : Prop :=
  lines_read evs = [] /\
  exists cfg err, o = Val (cfg, err) /\
    match err with
    | None =>
        source_ssl cmd ∈ validModes /\
        exists pw, passwords_read evs = [Ok pw] /\
          cfg = Some (mkConfig (source_host cmd) (source_port cmd) (source_user cmd) pw
                               (source_db cmd) (source_ssl cmd))
    | Some msg =>
        cfg = None /\
        (((source_ssl cmd ∉ validModes) /\ evs = [] /\
          msg = "invalid source SSL mode: must be one of: disable, require, verify-ca, verify-full") \/
         (source_ssl cmd ∈ validModes /\
          exists e, passwords_read evs = [Err e] /\
                    msg = fmt.Sprintf "failed to read source password: %v" [e]))
    end.


(** The operator answers [2] and then gives the name [ shop_copy ]. *)
Definition renaming : World :=
  {| clock := fun _ => noon;
     read_password := fun _ => Ok "secret";
     read_string := fun t =>
       if bool_decide (lines_read t = []) then Ok "2
" else Ok " shop_copy
";
     mkdir_all := fun _ _ => None;
     run_command := fun _ _ _ _ => None;
     sql_open := fun _ _ => None;
     sql_ping := fun _ _ => None;
     sql_query_bool := fun _ _ _ _ => Ok true;
     sql_exec := fun _ _ _ _ => None;
     write_file := fun _ _ _ _ => None |}.

(** ** The connection in use *)

(** Which connection the process holds: none, the one opened with the
    connection string [c], or [Misused] once an event has broken the
    discipline (a second open while a connection is held; a ping, query,
    statement or close on a connection that is not the one held). *)
Inductive ConnState := NoConn | Conn (c : string) | Misused.

Definition on_conn (st : ConnState) (c : string) (st' : ConnState) : ConnState :=
  match st with
  | Conn c' => if Str.eqb c' c then st' else Misused
  | _ => Misused
  end.

Definition conn_step (st : ConnState) (e : Event) : ConnState :=
  match e with
  | EvOpen c res =>
      match st with
      | NoConn => match res with None => Conn c | Some _ => NoConn end
      | _ => Misused
      end
  | EvClose c => on_conn st c NoConn
  | EvPing c _ | EvQueryRow c _ _ _ | EvExec c _ _ _ => on_conn st c st
  | _ => st
  end.

Definition conn_state (evs : list Event) : ConnState := fold_left conn_step evs NoConn.

(** ** The environment of the process *)

(** The environment without the two variables that the program sets for
    the external tools. *)
Definition without_tool_variables (env : gmap string string) : gmap string string :=
  delete "PGPASSWORD" (delete "PGSSLMODE" env).

(** What a part of the program does to the environment: nothing, when it
    starts no tool; otherwise it leaves the environment without the two
    variables. *)
Definition env_effect (env env' : gmap string string) (evs : list Event) : Prop :=
  (env' = env /\ Forall (fun e => ~ is_tool_run e) evs) \/
  (env' = without_tool_variables env /\ Exists (fun e => is_tool_run e) evs).

(** The process inherited a password for another server. *)
Definition inherited : gmap string string :=
  <["PGPASSWORD" := "other"]> (<["HOME" := "/root"]> ∅).

(** ** How a run ends *)

Definition is_error_log (e : Event) : bool :=
  match e with
  | EvLog ERROR _ => true
  | _ => false
  end.

Definition present {A} (p : option A) : bool :=
  match p with
  | Some _ => true
  | None => false
  end.

(** A function below [runSchemaMigration] returns or, when one of its
    configuration pointers is nil ([total] is [false]), panics; it never
    exits the process and never logs an error. *)
Definition finishes {A} (total : bool) (o : Outcome A) (evs : list Event) : Prop :=
  match o with
  | Val _ => True
  | Panic => total = false
  | Exit _ => False
  end /\
  Forall (fun e => ~ is_error_log e) evs.

(** The events end with one error line, the only one. *)
Definition fails_with_one_error (evs : list Event) : Prop :=
  exists pre msg, evs = pre ++ [EvLog ERROR msg] /\ Forall (fun e => ~ is_error_log e) pre.

(** The events contain no error line and end with the success line and
    the return of [runSchemaMigration]. *)
Definition succeeds (evs : list Event) : Prop :=
  exists pre,
    evs = pre ++ [EvLog SUCCESS "Schema migration completed successfully!";
                  EvReturn "runSchemaMigration" None] /\
    Forall (fun e => ~ is_error_log e) pre.

Definition run_ending (cmd : Flags) (o : Outcome unit) (evs : list Event) : Prop :=
  match o with
  | Val _ => succeeds evs
  | Exit code => code = 1%Z /\ fails_with_one_error evs
  | Panic => mode cmd = "export" /\ Forall (fun e => ~ is_error_log e) evs
  end.

(** What [generateRollbackScript] adds to the trace when it writes the
    script: the log line, the write of [rollback.sh] in the output
    directory with mode [0755], the success line when the write succeeded,
    and the return of the result of the write. *)
Definition script_written (c : DatabaseConfig) (backupFile : string)
    (options : MigrationOptions) (now : Time) (res : error) : list Event :=
  let path := filepath.Join [OutputDir options; "rollback.sh"] in
  [EvCall "generateRollbackScript";
   EvLog INFO (fmt.Sprintf "Generating rollback script: %s" [path]);
   EvWriteFile path (rollbackScriptText (time.format_datetime now) c backupFile) 493 res] ++
  match res with
  | None => [EvLog SUCCESS (fmt.Sprintf "Rollback script created: %s" [path])]
  | Some _ => []
  end ++
  [EvReturn "generateRollbackScript" res].

(** The events after a call of [generateRollbackScript] that writes the
    script of the run. *)
Definition writes_rollback_script (cmd : Flags) (l : list Event) : Prop :=
  exists content res rest,
    l = EvLog INFO (fmt.Sprintf "Generating rollback script: %s"
                      [filepath.Join [output_dir cmd; "rollback.sh"]]) ::
        EvWriteFile (filepath.Join [output_dir cmd; "rollback.sh"]) content 493 res ::
        rest.

Definition fp_write : Footprint := mkFootprint [] [KWrite].

(** ** Export mode *)

(** What a run in export mode may do: the calls that are entered (the
    recreation and the existence check are entered with a nil
    configuration when backups are disabled, and panic at once), and the
    kinds of events: no query, no statement, no [psql], no file written by
    the program. *)
Definition fp_export_mode : Footprint :=
  mkFootprint ["runSchemaMigration"; "validateSourceConnection"; "performSchemaMigration";
               "createDirectories"; "exportSchema"; "recreateDestinationDatabase";
               "dropDatabaseIfExists"; "databaseExists"]
              [KLog; KPrint; KRead; KConn; KMkdir; KEnv; KDump].

Definition fp_export_steps : Footprint :=
  mkFootprint ["performSchemaMigration"; "createDirectories"; "exportSchema";
               "recreateDestinationDatabase"; "dropDatabaseIfExists"; "databaseExists"]
              [KLog; KMkdir; KEnv; KDump].

(** The event uses no connection but one to the source database that the
    flags name, with some password. *)
Definition connects_to_source (cmd : Flags) (e : Event) : Prop :=
  match conn_of e with
  | Some connStr =>
      exists pw, connStr = sourceConnStr (mkConfig (source_host cmd) (source_port cmd)
                                            (source_user cmd) pw (source_db cmd)
                                            (source_ssl cmd))
  | None => True
  end.

(** What follows a failed generation of the rollback script in a run that
    is not a dry run: a warning, and the migration succeeds. *)
Definition script_failure_ignored (e : Event) : option (list Event) :=
  match e with
  | EvReturn n err =>
      if Str.eqb n "generateRollbackScript" then
        match err with
        | Some err =>
            Some [EvLog WARNING (fmt.Sprintf "Failed to generate rollback script: %v" [err]);
                  EvReturn "performSchemaMigration" None;
                  EvLog SUCCESS "Schema migration completed successfully!";
                  EvReturn "runSchemaMigration" None]
        | None => None
        end
      else None
  | _ => None
  end.

(** What follows it in a dry run: the error is the error of the
    migration. *)
Definition script_failure_fatal (e : Event) : option (list Event) :=
  match e with
  | EvReturn n err =>
      if Str.eqb n "generateRollbackScript" then
        match err with
        | Some err =>
            Some [EvReturn "performSchemaMigration" (Some err);
                  EvLog ERROR (fmt.Sprintf "Schema migration failed: %v" [err])]
        | None => None
        end
      else None
  | _ => None
  end.

(** The rollback script cannot be written; everything else succeeds. *)
Definition read_only_output : World :=
  {| clock := fun _ => noon;
     read_password := fun _ => Ok "secret";
     read_string := fun _ => Ok "1";
     mkdir_all := fun _ _ => None;
     run_command := fun _ _ _ _ => None;
     sql_open := fun _ _ => None;
     sql_ping := fun _ _ => None;
     sql_query_bool := fun _ _ _ _ => Ok true;
     sql_exec := fun _ _ _ _ => None;
     write_file := fun _ _ _ _ => Some "permission denied" |}.

(** * Lemmas and theorems *)

Example Join_out :
  filepath.Join ["./out"; "schema_reports_20250102_030405.sql"]
  = "out/schema_reports_20250102_030405.sql".
Proof. vm_compute. reflexivity. Qed.

Example Join_backup : filepath.Join ["./schema_migration"; "backup"] = "schema_migration/backup".
Proof. vm_compute. reflexivity. Qed.

Example Clean_dots : filepath.Clean "/a/./b/../../c//d/.." = "/c".
Proof. vm_compute. reflexivity. Qed.

Example format_compact_ex :
  time.format_compact (mkTime 2025 1 2 3 4 5) = "20250102_030405".
Proof. vm_compute. reflexivity. Qed.

Example trim_space_ex : Str.trim_space "  1
" = "1".
Proof. vm_compute. reflexivity. Qed.

Example Sprintf_ex :
  fmt.Sprintf "schema_%s_%s.sql" ["reports"; "20250102_030405"]
  = "schema_reports_20250102_030405.sql".
Proof. vm_compute. reflexivity. Qed.

Section WpRules.
Context {A B : Type}.
Implicit Types (w : World) (env : gmap string string) (tr : list Event).

Lemma wp_events (m : M A) w s (Q : post A) :
wp m w (environ s) (trace s) Q ->
Q (m w s).1 (events_of m w s) (environ (m w s).2).
Proof.
destruct s as [env tr]. intros (evs & Htr & HQ). simpl in *.
unfold events_of. simpl. rewrite Htr, drop_app_length. exact HQ.
Qed.

Lemma wp_mono (m : M A) w env tr (Q Q' : post A) :
wp m w env tr Q -> (forall o evs env', Q o evs env' -> Q' o evs env') ->
wp m w env tr Q'.
Proof. intros (evs & Htr & HQ) H. exists evs. auto. Qed.

Lemma wp_ret (a : A) w env tr (Q : post A) : Q (Val a) [] env -> wp (ret a) w env tr Q.
Proof. intros H. exists []. simpl. rewrite app_nil_r. auto. Qed.

Lemma wp_panic w env tr (Q : post A) : Q Panic [] env -> wp panic w env tr Q.
Proof. intros H. exists []. simpl. rewrite app_nil_r. auto. Qed.

Lemma wp_Exit c w env tr (Q : post A) : Q (Exit c) [] env -> wp (os.Exit c) w env tr Q.
Proof. intros H. exists []. simpl. rewrite app_nil_r. auto. Qed.

Lemma wp_ask (f : World -> list Event -> A) w env tr (Q : post A) :
  (forall a, a = f w tr -> Q (Val a) [] env) -> wp (ask f) w env tr Q.
Proof. intros H. exists []. simpl. rewrite app_nil_r. auto. Qed.

Lemma wp_bind (m : M A) (k : A -> M B) w env tr (Q : post B) :
wp m w env tr (wp_k k w tr Q) -> wp (bind m k) w env tr Q.
Proof.
unfold wp, wp_k, bind. intros (evs1 & Htr & H).
destruct (m w _) as [[a| |c] [env1 tr1]]; simpl in *; subst tr1.
- destruct H as (evs2 & Htr2 & H). exists (evs1 ++ evs2).
  rewrite Htr2, app_assoc. auto.
- exists evs1. auto.
- exists evs1. auto.
Qed.

Lemma wp_defer (d : M unit) (body : M A) w env tr (Q : post A) :
wp body w env tr (wp_d d w tr Q) -> wp (defer d body) w env tr Q.
Proof.
unfold wp, wp_d, defer. intros (evs1 & Htr & H).
destruct (body w _) as [[a| |c] [env1 tr1]]; simpl in *; subst tr1.
- destruct H as (evs2 & Htr2 & H). exists (evs1 ++ evs2).
  rewrite Htr2, app_assoc. auto.
- destruct H as (evs2 & Htr2 & H). exists (evs1 ++ evs2).
  rewrite Htr2, app_assoc. auto.
- exists evs1. auto.
Qed.

Lemma wp_fn_ (name : string) (err_of : A -> error) (body : M A) w env tr (Q : post A) :
wp body w env (tr ++ [EvCall name]) (wp_f name err_of Q) ->
wp (fn_ name err_of body) w env tr Q.
Proof.
unfold wp, wp_f, fn_, bind, emit, ret. simpl. intros (mid & Htr & H).
destruct (body w _) as [[r| |c] [env1 tr1]]; simpl in *; subst tr1.
- exists (EvCall name :: mid ++ [EvReturn name (err_of r)]).
  split; [|exact H]. rewrite <- !app_assoc. reflexivity.
- exists (EvCall name :: mid). split; [|exact H].
  rewrite <- !app_assoc. reflexivity.
- exists (EvCall name :: mid). split; [|exact H].
  rewrite <- !app_assoc. reflexivity.
Qed.
End WpRules.

Lemma wp_emit e w env tr (Q : post unit) : Q (Val tt) [e] env -> wp (emit e) w env tr Q.
Proof. intros H. exists [e]. auto. Qed.

Lemma wp_Setenv k v w env tr (Q : post unit) :
  Q (Val tt) [EvSetenv k v] (<[k := v]> env) -> wp (os.Setenv k v) w env tr Q.
Proof. intros H. exists [EvSetenv k v]. auto. Qed.

Lemma wp_Unsetenv k w env tr (Q : post unit) :
  Q (Val tt) [EvUnsetenv k] (delete k env) -> wp (os.Unsetenv k) w env tr Q.
Proof. intros H. exists [EvUnsetenv k]. auto. Qed.

Lemma wp_Run name args w env tr (Q : post error) :
  (forall r, r = run_command w tr name args env ->
             Q (Val r) [EvRun name args env r] env) ->
  wp (exec.Run name args) w env tr Q.
Proof. intros H. eexists. split; [reflexivity|]. apply H. reflexivity. Qed.

Lemma wp_fn name (body : M error) w env tr (Q : post error) :
  wp body w env (tr ++ [EvCall name]) (wp_f name id Q) -> wp (fn name body) w env tr Q.
Proof. apply wp_fn_. Qed.

Lemma createDirectories_loop_cons dir rest :
  createDirectories_loop (dir :: rest) =
  bind (os.MkdirAll dir) (fun err =>
    match err with
    | Some err => ret (Some err)
    | None => createDirectories_loop rest
    end).
Proof. reflexivity. Qed.

(** A branch on the mode that the flags exclude. *)
Ltac wrong_mode :=
  lazymatch goal with
  | Hm : mode _ = _, Hb : Str.eqb (Mode _) "direct" = _ |- _ =>
      exfalso; cbn [Mode] in Hb; rewrite Hm in Hb; vm_compute in Hb; discriminate Hb
  end.

(** One step of symbolic execution.  A call to a function of [main.go]
    is handed to [call], which either uses a summary of that function or
    fails, and then the function is unfolded. *)
Ltac head_of m := lazymatch m with ?f _ => head_of f | ?f => f end.

Ltac wp_step_gen call answer :=
  lazymatch goal with
  | |- wp ?m _ _ _ _ =>
      lazymatch m with
      | bind _ _ => apply wp_bind
      | ret _ => apply wp_ret
      | panic => apply wp_panic
      | os.Exit _ => apply wp_Exit
      | emit _ => apply wp_emit
      | ask _ => apply wp_ask; answer
      | os.Setenv _ _ => apply wp_Setenv
      | os.Unsetenv _ => apply wp_Unsetenv
      | exec.Run _ _ => apply wp_Run; answer
      | defer _ _ => apply wp_defer
      | fn _ _ => apply wp_fn
      | fn_ _ _ _ => apply wp_fn_
      | createDirectories_loop (_ :: _) => rewrite createDirectories_loop_cons
      | createDirectories_loop [] => apply wp_ret
      | createDirectories_loop (if ?b then _ else _) => destruct b eqn:?
      | createDirectories_loop _ => progress simpl app
      | match ?x with _ => _ end =>
          lazymatch x with
          | DryRun (mkOptions _ _ _ _ _ _ ?b) => change x with b; destruct b eqn:?
          | CreateBackup (mkOptions _ _ ?b _ _ _ _) => change x with b; destruct b eqn:?
          | negb false => change x with true
          | negb true => change x with false
          | _ => destruct x eqn:?
          end;
          try solve [exfalso; congruence | wrong_mode]
      | _ => first [ call m | let h := head_of m in unfold h ]
      end
  | |- wp_k _ _ _ _ _ _ _ => unfold wp_k at 1
  | |- wp_d _ _ _ _ _ _ _ => unfold wp_d at 1
  | |- wp_f _ _ _ _ _ _ => unfold wp_f at 1
  end; lazy beta iota zeta.

(** The answers of the world are arbitrary values; [wp_step_knowing]
    keeps the equation that says where an answer comes from. *)
Ltac wp_step_with call := wp_step_gen call ltac:(intros ? _).
Ltac wp_step_knowing call := wp_step_gen call ltac:(intros ? ?).

Ltac no_call m := fail.
Ltac wp_step := wp_step_with no_call.
Ltac wp_run := repeat wp_step.

(** ** Footprints of the functions *)

Lemma inside_mono (F F' : Footprint) (e : Event) :
  fp_names F ⊆ fp_names F' -> fp_kinds F ⊆ fp_kinds F' ->
  inside F e -> inside F' e.
Proof.
  intros Hn Hk. unfold inside.
  destruct e; simpl; try (intros H; apply bool_decide_unpack in H;
    apply bool_decide_pack; auto); destruct (if Str.eqb _ _ then _ else _); auto.
Qed.

(** From the footprint recorded for a list to another property of its events. *)
Ltac from_footprint :=
  lazymatch goal with
  | H : Forall _ ?l |- Forall _ ?l => eapply Forall_impl; [exact H |]
  end.

Ltac fp_solve :=
  repeat first
    [ apply Forall_nil_2
    | apply Forall_cons_2; [lazy; exact I |]
    | apply Forall_app_2
    | from_footprint;
      intros ?; apply inside_mono; apply (bool_decide_unpack _); vm_compute; exact I ].

(** Use the summary [lem] of the function that is about to run. *)
Ltac use_summary lem :=
  eapply wp_mono; [apply lem |];
  let o := fresh "o" in
  let mid := fresh "mid" in
  let Hmid := fresh "Hmid" in
  intros [?r| |?c] ? ? HC; simpl in HC;
  [ destruct HC as (mid & -> & Hmid)
  | destruct HC as (mid & -> & Hmid)
  | destruct HC ].

Ltac called_leaf :=
  lazymatch goal with
  | |- Called _ _ _ (Val _) _ => eexists; split; [reflexivity | fp_solve]
  | |- Called _ _ _ Panic _ => eexists; split; [reflexivity | fp_solve]
  end.

Lemma createDirectories_called options w env tr :
  wp (createDirectories options) w env tr
     (fun o evs _ => Called "createDirectories" fp_createDirectories id o evs).
Proof. wp_run; called_leaf. Qed.

Lemma exportSchema_called config outputFile options w env tr :
  wp (exportSchema config outputFile options) w env tr
     (fun o evs _ => Called "exportSchema" fp_exportSchema id o evs).
Proof. wp_run; called_leaf. Qed.

Lemma databaseExists_called config w env tr :
  wp (databaseExists config) w env tr
     (fun o evs _ => Called "databaseExists" fp_databaseExists snd o evs).
Proof. wp_run; called_leaf. Qed.

Lemma applySchema_called config schemaFile w env tr :
  wp (applySchema config schemaFile) w env tr
     (fun o evs _ => Called "applySchema" fp_applySchema id o evs).
Proof. wp_run; called_leaf. Qed.

Lemma createDatabase_called config w env tr :
  wp (createDatabase config) w env tr
     (fun o evs _ => Called "createDatabase" fp_createDatabase id o evs).
Proof. wp_run; called_leaf. Qed.

Lemma generateRollbackScript_called config backupFile options w env tr :
  wp (generateRollbackScript config backupFile options) w env tr
     (fun o evs _ => Called "generateRollbackScript" fp_generateRollbackScript id o evs).
Proof. wp_run; called_leaf. Qed.

Ltac call_leaf m :=
  lazymatch m with
  | databaseExists _ => use_summary databaseExists_called
  | createDatabase _ => use_summary createDatabase_called
  | createDirectories _ => use_summary createDirectories_called
  | exportSchema _ _ _ => use_summary exportSchema_called
  | applySchema _ _ => use_summary applySchema_called
  | generateRollbackScript _ _ _ => use_summary generateRollbackScript_called
  end.

Lemma createDestinationBackup_called config backupFile options w env tr :
  wp (createDestinationBackup config backupFile options) w env tr
     (fun o evs _ =>
        Called "createDestinationBackup" fp_createDestinationBackup id o evs).
Proof. repeat wp_step_with call_leaf; called_leaf. Qed.

Lemma dropDatabaseIfExists_called config w env tr :
  wp (dropDatabaseIfExists config) w env tr
     (fun o evs _ => Called "dropDatabaseIfExists" fp_dropDatabaseIfExists id o evs).
Proof. repeat wp_step_with call_leaf; called_leaf. Qed.

Ltac call_mid m :=
  lazymatch m with
  | dropDatabaseIfExists _ => use_summary dropDatabaseIfExists_called
  | createDestinationBackup _ _ _ => use_summary createDestinationBackup_called
  | _ => call_leaf m
  end.

Lemma recreateDestinationDatabase_called config w env tr :
  wp (recreateDestinationDatabase config) w env tr
     (fun o evs _ =>
        Called "recreateDestinationDatabase" fp_recreateDestinationDatabase id o evs).
Proof. repeat wp_step_with call_mid; called_leaf. Qed.

Lemma validateSourceConnection_called source w env tr :
  wp (validateSourceConnection source) w env tr
     (fun o evs _ =>
        Called "validateSourceConnection" fp_validateSourceConnection id o evs).
Proof. wp_run; called_leaf. Qed.

Ltac call_sub m :=
  lazymatch m with
  | recreateDestinationDatabase _ => use_summary recreateDestinationDatabase_called
  | validateSourceConnection _ => use_summary validateSourceConnection_called
  | _ => call_mid m
  end.

Lemma validateConnections_called source dest w env tr :
  wp (validateConnections source dest) w env tr
     (fun o evs _ => Called "validateConnections" fp_validateConnections id o evs).
Proof. repeat wp_step_with call_sub; called_leaf. Qed.

(** ** Trace properties over structured traces *)

Lemma inside_call F n e : inside F e -> is_call n e -> n ∈ fp_names F.
Proof.
  destruct e; simpl; try contradiction. intros H1 H2.
  apply bool_decide_unpack in H1, H2. congruence.
Qed.

Lemma inside_success F n e : inside F e -> is_success n e -> n ∈ fp_names F.
Proof.
  destruct e; simpl; try contradiction. intros H1 H2.
  apply andb_True in H2 as [H2 _]. apply bool_decide_unpack in H1, H2. congruence.
Qed.

Lemma inside_disjoint F F' e :
  Forall (fun n => n ∉ fp_names F') (fp_names F) ->
  Forall (fun k => k ∉ fp_kinds F') (fp_kinds F) ->
  inside F e -> ~ inside F' e.
Proof.
  intros Hn Hk H H'. rewrite Forall_forall in Hn. rewrite Forall_forall in Hk.
  unfold inside in *.
  destruct e; simpl in *; try (destruct (if Str.eqb _ _ then _ else _));
    apply bool_decide_unpack in H, H'; first [exact (Hn _ H H') | exact (Hk _ H H')].
Qed.

Section PrecededFrom.
Context (a b : Event -> bool).

Lemma preceded_from_nil (seen : bool) : preceded_from seen a b [].
Proof. intros [|] ? ? H; discriminate H. Qed.

Lemma preceded_from_true evs : preceded_from true a b evs.
Proof. intros ? ? ? _ _. left. exact I. Qed.

Lemma preceded_from_cons (seen : bool) e evs :
  (b e -> seen) -> preceded_from (seen || a e) a b evs ->
  preceded_from seen a b (e :: evs).
Proof.
  intros He H [|e' l1] e0 l2 Heq Hb; injection Heq as -> Heq.
  - left. auto.
  - destruct (H l1 e0 l2 Heq Hb) as [Hs|Hex].
    + apply orb_True in Hs as [Hs|Hs]; [left; exact Hs|].
      right. apply Exists_cons_hd. exact Hs.
    + right. apply Exists_cons_tl. exact Hex.
Qed.

Lemma preceded_from_app (seen : bool) mid evs :
  Forall (fun e => ~ b e) mid -> preceded_from seen a b evs ->
  preceded_from seen a b (mid ++ evs).
Proof.
  intros Hmid H. induction Hmid as [|e mid He _ IH]; [exact H|].
  intros [|e' l1] e0 l2 Heq Hb; injection Heq as -> Heq; [contradiction|].
  destruct (IH l1 e0 l2 Heq Hb) as [Hs|Hex]; [left; exact Hs|].
  right. apply Exists_cons_tl. exact Hex.
Qed.

Lemma preceded_from_neutral (seen : bool) mid :
  Forall (fun e => ~ b e) mid -> preceded_from seen a b mid.
Proof.
  intros H. rewrite <- (app_nil_r mid).
  apply preceded_from_app; [exact H | apply preceded_from_nil].
Qed.

Lemma preceded_from_app_r (seen : bool) evs rest :
  preceded_by a b evs -> Forall (fun e => ~ b e) rest ->
  preceded_from seen a b (evs ++ rest).
Proof.
  intros H Hrest l1 e l2 Heq Hb. right. rewrite Forall_forall in Hrest.
  apply app_eq_app in Heq as [l [[-> Hr]|[-> Hr]]].
  - destruct l as [|e' l]; simpl in Hr.
    + exfalso. apply (Hrest e); [|exact Hb]. rewrite <- Hr. left.
    + injection Hr as <- ->. eapply H; [reflexivity | exact Hb].
  - exfalso. apply (Hrest e); [|exact Hb]. rewrite Hr.
    apply elem_of_app. right. left.
Qed.

Lemma preceded_from_of_by (seen : bool) evs :
  preceded_by a b evs -> preceded_from seen a b evs.
Proof. intros H l1 e l2 Heq Hb. right. eapply H; eassumption. Qed.

Lemma preceded_by_from evs : preceded_from false a b evs -> preceded_by a b evs.
Proof.
  intros H l1 e l2 Heq Hb. destruct (H l1 e l2 Heq Hb) as [[]|Hex]. exact Hex.
Qed.
End PrecededFrom.

Section AlwaysNext.
Context (f : Event -> option (list Event)).

Lemma always_next_nil : always_next f [].
Proof. intros [|] ? ? ? H; discriminate H. Qed.

Lemma always_next_cons e evs :
  (forall pat, f e = Some pat -> exists l3, evs = pat ++ l3) ->
  always_next f evs -> always_next f (e :: evs).
Proof.
  intros He H [|e' l1] e0 l2 pat Heq Hf; injection Heq as -> Heq.
  - subst l2. auto.
  - eapply H; eauto.
Qed.

Lemma always_next_app mid evs :
  Forall (fun e => f e = None) mid -> always_next f evs ->
  always_next f (mid ++ evs).
Proof.
  intros Hmid H. induction Hmid as [|e mid He _ IH]; [exact H|].
  apply always_next_cons; [|exact IH]. intros pat Hp. congruence.
Qed.

Lemma always_next_neutral mid : Forall (fun e => f e = None) mid -> always_next f mid.
Proof.
  intros H. rewrite <- (app_nil_r mid).
  apply always_next_app; [exact H | apply always_next_nil].
Qed.
End AlwaysNext.

Lemma dest_state_neutral mid st :
  Forall (fun e => kind_of e <> Some KExec) mid -> fold_left dest_step mid st = st.
Proof.
  intros H. induction H as [|e mid He _ IH]; [reflexivity|]. simpl. rewrite <- IH at 2.
  f_equal. destruct e; simpl in *; try reflexivity. congruence.
Qed.

Lemma inside_not_exec F e : KExec ∉ fp_kinds F -> inside F e -> kind_of e <> Some KExec.
Proof.
  intros HF H Hk. destruct e; simpl in *; try discriminate.
  - repeat destruct (Str.eqb _ _); discriminate.
  - apply bool_decide_unpack in H. auto.
Qed.

(** ** Calls with a configuration return *)

Ltac returned_leaf :=
  lazymatch goal with
  | |- Returned _ _ _ (Val _) _ =>
      eexists _, _; split; [reflexivity | split; [reflexivity | fp_solve]]
  end.

Ltac use_returned lem :=
  eapply wp_mono; [apply lem |];
  let mid := fresh "mid" in
  let Hmid := fresh "Hmid" in
  intros ? ? ? (?r & mid & -> & -> & Hmid).

Lemma exportSchema_returns config outputFile options w env tr :
  wp (exportSchema (Some config) outputFile options) w env tr
     (fun o evs _ => Returned "exportSchema" fp_exportSchema id o evs).
Proof. wp_run; returned_leaf. Qed.

Lemma databaseExists_returns config w env tr :
  wp (databaseExists (Some config)) w env tr
     (fun o evs _ => Returned "databaseExists" fp_databaseExists snd o evs).
Proof. wp_run; returned_leaf. Qed.

Lemma createDirectories_returns options w env tr :
  wp (createDirectories options) w env tr
     (fun o evs _ => Returned "createDirectories" fp_createDirectories id o evs).
Proof. wp_run; returned_leaf. Qed.

Ltac call_some m :=
  lazymatch m with
  | databaseExists (Some _) => use_returned databaseExists_returns
  | exportSchema (Some _) _ _ => use_returned exportSchema_returns
  | createDirectories _ => use_returned createDirectories_returns
  end.

Lemma createDestinationBackup_returns config backupFile options w env tr :
  wp (createDestinationBackup (Some config) backupFile options) w env tr
     (fun o evs _ =>
        Returned "createDestinationBackup" fp_createDestinationBackup id o evs).
Proof. repeat wp_step_with call_some; returned_leaf. Qed.

(** ** The state of the destination database along a trace *)

Lemma dropQuery_drop db :
  String.prefix "DROP DATABASE "
    (fmt.Sprintf ("DROP DATABASE " +:+ dq +:+ "%s" +:+ dq) [db]) = true.
Proof. reflexivity. Qed.

Lemma createQuery_drop db :
  String.prefix "DROP DATABASE "
    (fmt.Sprintf ("CREATE DATABASE " +:+ dq +:+ "%s" +:+ dq) [db]) = false.
Proof. reflexivity. Qed.

Lemma createQuery_create db :
  String.prefix "CREATE DATABASE "
    (fmt.Sprintf ("CREATE DATABASE " +:+ dq +:+ "%s" +:+ dq) [db]) = true.
Proof. reflexivity. Qed.

Lemma terminateQuery_drop : String.prefix "DROP DATABASE " terminateQuery = false.
Proof. reflexivity. Qed.

Lemma terminateQuery_create : String.prefix "CREATE DATABASE " terminateQuery = false.
Proof. reflexivity. Qed.

Ltac norm_trace :=
  repeat first [ progress cbn [app id fst snd] | rewrite <- app_assoc | rewrite app_nil_r ].

Lemma list_assoc_elim (P : list Event -> Prop) l1 l2 l3 :
  P (l1 ++ l2 ++ l3) -> P ((l1 ++ l2) ++ l3).
Proof. rewrite <- app_assoc. auto. Qed.

Lemma list_nil_r_elim (P : list Event -> Prop) l : P l -> P (l ++ []).
Proof. rewrite app_nil_r. auto. Qed.

(** Bring the head of the list a property is stated of into the form
    [e :: l], [mid ++ l] or [[]]. *)
Ltac head_norm :=
  lazymatch goal with
  | |- ?P ([] ++ ?l) => change (P l)
  | |- ?P ((?e :: ?l1) ++ ?l2) => change (P (e :: (l1 ++ l2)))
  | |- ?P ((?l1 ++ ?l2) ++ ?l3) => apply (list_assoc_elim P l1 l2 l3)
  | |- ?P (?l ++ []) => apply (list_nil_r_elim P l)
  end.

Ltac not_in_list := apply (bool_decide_unpack _); vm_compute; exact I.

(** A decidable closed proposition, by evaluation. *)
Ltac by_computation := apply (bool_decide_unpack _); vm_compute; exact I.

Ltac neutral_exec :=
  from_footprint; intros ?; apply inside_not_exec; not_in_list.

Ltac dest_solve :=
  norm_trace;
  repeat first
    [ progress cbn [fold_left dest_step]
    | rewrite fold_left_app
    | match goal with
      | H : Forall _ ?l |- context [fold_left dest_step ?l ?st] =>
          rewrite (dest_state_neutral l st) by neutral_exec
      end
    | rewrite dropQuery_drop
    | rewrite createQuery_drop
    | rewrite createQuery_create
    | rewrite terminateQuery_drop
    | rewrite terminateQuery_create ].

Ltac call_exists m :=
  lazymatch m with
  | databaseExists _ => use_summary databaseExists_called
  end.

Lemma wp_and {A} (m : M A) w env tr (Q1 Q2 : post A) :
  wp m w env tr Q1 -> wp m w env tr Q2 ->
  wp m w env tr (fun o evs env' => Q1 o evs env' /\ Q2 o evs env').
Proof.
  intros (evs1 & Htr1 & H1) (evs2 & Htr2 & H2). exists evs1.
  rewrite Htr1 in Htr2. apply app_inv_head in Htr2 as <-. auto.
Qed.

(** When [recreateDestinationDatabase] returns success, its last
    statement on the server is a successful [CREATE DATABASE]. *)
Lemma recreateDestinationDatabase_creates config w env tr :
  wp (recreateDestinationDatabase config) w env tr
     (fun o evs _ => o = Val None -> forall st, fold_left dest_step evs st = Created).
Proof.
  repeat wp_step_with call_exists.
  all: intros Ho; try discriminate Ho; intros st.
  all: dest_solve; reflexivity.
Qed.

Lemma recreateDestinationDatabase_summary config w env tr :
  wp (recreateDestinationDatabase config) w env tr
     (fun o evs _ =>
        Called "recreateDestinationDatabase" fp_recreateDestinationDatabase id o evs /\
        (o = Val None -> forall st, fold_left dest_step evs st = Created)).
Proof.
  apply wp_and;
    [apply recreateDestinationDatabase_called | apply recreateDestinationDatabase_creates].
Qed.

Ltac use_recreate_summary :=
  eapply wp_mono; [apply recreateDestinationDatabase_summary |];
  let mid := fresh "mid" in
  let Hmid := fresh "Hmid" in
  let Hst := fresh "Hst" in
  intros [?r| |?c] ? ? [HC Hst]; simpl in HC;
  [ destruct HC as (mid & -> & Hmid)
  | destruct HC as (mid & -> & Hmid)
  | destruct HC ].

Ltac call_perform m :=
  lazymatch m with
  | recreateDestinationDatabase _ => use_recreate_summary
  | _ => call_mid m
  end.

Lemma fold_call_return name mid r st :
  fold_left dest_step (EvCall name :: mid ++ [EvReturn name r]) st
  = fold_left dest_step mid st.
Proof. simpl. rewrite fold_left_app. reflexivity. Qed.

Ltac created_facts :=
  repeat match goal with
         | Hst : Val None = Val None -> _ |- _ =>
             specialize (Hst eq_refl);
             pose proof (fun st => eq_trans (eq_sym (fold_call_return _ _ _ st)) (Hst st));
             clear Hst
         | Hst : Val _ = Val None -> _ |- _ => clear Hst
         | Hst : Panic = Val None -> _ |- _ => clear Hst
         end.

Ltac rewrite_created :=
  match goal with
  | H : forall st, fold_left dest_step _ st = Created |- _ => rewrite H
  end.

(** A successful [performSchemaMigration] does not end with the
    destination dropped. *)
Lemma performSchemaMigration_not_dropped source dest options w env tr :
  wp (performSchemaMigration source dest options) w env tr
     (fun o evs _ => o = Val None -> dest_state evs <> Dropped).
Proof.
  repeat wp_step_with call_perform.
  all: intros Ho; try discriminate Ho.
  all: created_facts; unfold dest_state.
  all: repeat first [ progress dest_solve | rewrite_created ].
  all: discriminate.
Qed.

Lemma inside_not_call F n e : n ∉ fp_names F -> inside F e -> ~ is_call n e.
Proof. intros Hn H Hc. apply Hn. eapply inside_call; eassumption. Qed.

Lemma inside_not_success F n e : n ∉ fp_names F -> inside F e -> ~ is_success n e.
Proof. intros Hn H Hc. apply Hn. eapply inside_success; eassumption. Qed.

Ltac neutral_call :=
  from_footprint; intros ?;
  first [ apply inside_not_call | apply inside_not_success ]; not_in_list.

Ltac pf_flag :=
  lazymatch goal with
  | |- preceded_from ?s ?a ?b ?l =>
      let v := eval lazy in s in change (preceded_from v a b l)
  end.

Ltac pf_solve :=
  repeat first
    [ head_norm
    | apply preceded_from_nil
    | apply preceded_from_true
    | apply preceded_from_app; [neutral_call |]
    | apply preceded_from_neutral; neutral_call
    | apply preceded_from_cons; [lazy; tauto | pf_flag] ].

(** Within [performSchemaMigration], [applySchema] is called only after
    [recreateDestinationDatabase] has returned [nil]. *)
Lemma performSchemaMigration_apply_guarded source dest options w env tr :
  wp (performSchemaMigration source dest options) w env tr
     (fun _ evs _ =>
        preceded_by (is_success "recreateDestinationDatabase")
                    (is_call "applySchema") evs).
Proof.
  repeat wp_step_with call_perform.
  all: apply preceded_by_from.
  all: pf_solve.
Qed.

(** ** The prompts *)

Ltac config_leaf :=
  lazymatch goal with
  | |- ConfigRead (Val _) _ =>
      eexists _, _; split; [reflexivity | split; [try discriminate; eauto | fp_solve]]
  end.

Ltac use_config lem :=
  eapply wp_mono; [apply lem |];
  let Hcfg := fresh "Hcfg" in
  let Hq := fresh "Hq" in
  intros ? ? ? (?cfg & [?err|] & -> & Hcfg & Hq);
  [ clear Hcfg | destruct (Hcfg eq_refl) as [?c ->]; clear Hcfg ].

Lemma getSourceConfig_reads cmd w env tr :
  wp (getSourceConfig cmd) w env tr (fun o evs _ => ConfigRead o evs).
Proof. wp_run; config_leaf. Qed.

Lemma getDestConfig_reads cmd sourceDBName w env tr :
  wp (getDestConfig cmd sourceDBName) w env tr (fun o evs _ => ConfigRead o evs).
Proof. wp_run; config_leaf. Qed.

(** ** From [performSchemaMigration] to a run of the program *)

Lemma wp_run_events w cmd env (Q : post unit) :
  wp (runSchemaMigration cmd) w env [] Q ->
  Q (run w cmd env).1 (run_events w cmd env) (environ (run w cmd env).2).
Proof. intros H. apply (wp_events _ w (start env)) in H. exact H. Qed.

(** Symbolic execution of [runSchemaMigration], with [lem] as the summary
    of [performSchemaMigration]. *)
Ltac call_run perform m :=
  lazymatch m with
  | getSourceConfig _ => use_config getSourceConfig_reads
  | getDestConfig _ _ => use_config getDestConfig_reads
  | validateSourceConnection _ => use_summary validateSourceConnection_called
  | validateConnections _ _ => use_summary validateConnections_called
  | performSchemaMigration _ _ _ =>
      first [ solve [wrong_mode]
            | eapply wp_mono; [perform |]; intros [?r| |?c] ? ? ?HP; lazy beta in HP ]
  end.

Ltac wp_run_by perform := repeat wp_step_with ltac:(fun m => call_run perform m).
Ltac wp_run_with lem := wp_run_by ltac:(apply lem).

Ltac concrete_neutral :=
  repeat (apply Forall_cons_2; [lazy; tauto |]); apply Forall_nil_2.

Ltac pf_run_solve :=
  repeat first
    [ head_norm
    | apply preceded_from_nil
    | apply preceded_from_true
    | apply preceded_from_app; [neutral_call |]
    | apply preceded_from_neutral; neutral_call
    | apply preceded_from_app_r; [eassumption | concrete_neutral]
    | apply preceded_from_of_by; eassumption
    | apply preceded_from_cons; [lazy; tauto | pf_flag] ].

Lemma run_apply_guarded cmd w env :
  wp (runSchemaMigration cmd) w env []
     (fun _ evs _ =>
        preceded_by (is_success "recreateDestinationDatabase")
                    (is_call "applySchema") evs).
Proof.
  wp_run_with performSchemaMigration_apply_guarded.
  all: apply preceded_by_from; pf_run_solve.
Qed.

Lemma run_not_dropped cmd w env :
  wp (runSchemaMigration cmd) w env []
     (fun o evs _ => o = Val tt -> dest_state evs <> Dropped).
Proof.
  wp_run_with performSchemaMigration_not_dropped.
  all: intros Ho; try discriminate Ho.
  all: unfold dest_state in *; dest_solve.
  all: auto.
Qed.

(** * The claims *)

(** C2.  In every run, [applySchema] is called only after
    [recreateDestinationDatabase] has returned [nil] in that run; and a run
    that ends with success does not leave the destination database dropped
    and not recreated: the last successful [DROP DATABASE] or
    [CREATE DATABASE] statement of the run, if there is one, is a
    [CREATE DATABASE]. *)
Theorem apply_only_after_recreate w cmd env :
  preceded_by (is_success "recreateDestinationDatabase") (is_call "applySchema")
              (run_events w cmd env) /\
  ((run w cmd env).1 = Val tt -> dest_state (run_events w cmd env) <> Dropped).
Proof.
  split.
  - apply (wp_run_events w cmd env _ (run_apply_guarded cmd w env)).
  - apply (wp_run_events w cmd env _ (run_not_dropped cmd w env)).
Qed.

(** The direct run in which everything succeeds does call [applySchema]
    and ends with the destination created. *)
Example apply_only_after_recreate_happy :
  (run happy flags_direct ∅).1 = Val tt /\
  Exists (fun e => is_call "applySchema" e) (run_events happy flags_direct ∅) /\
  dest_state (run_events happy flags_direct ∅) = Created.
Proof. repeat split; first [ vm_compute; reflexivity | by_computation ]. Qed.

Section AlwaysLater.
Context (a b : Event -> bool).

Lemma always_later_nil : always_later a b [].
Proof. intros [|] ? ? H; discriminate H. Qed.

Lemma always_later_cons e evs :
  (a e -> Exists (fun e' => b e') evs) -> always_later a b evs ->
  always_later a b (e :: evs).
Proof.
  intros He H [|e' l1] e0 l2 Heq Ha; injection Heq as -> Heq.
  - subst l2. auto.
  - eapply H; eauto.
Qed.

Lemma always_later_app mid evs :
  Forall (fun e => ~ a e) mid -> always_later a b evs -> always_later a b (mid ++ evs).
Proof.
  intros Hmid H. induction Hmid as [|e mid He _ IH]; [exact H|].
  apply always_later_cons; [|exact IH]. intros Ha. contradiction.
Qed.

Lemma always_later_app_r evs rest :
  always_later a b evs -> Forall (fun e => ~ a e) rest ->
  always_later a b (evs ++ rest).
Proof.
  intros H Hrest l1 e l2 Heq Ha. rewrite Forall_forall in Hrest.
  apply app_eq_app in Heq as [l [[-> Hr]|[-> Hr]]].
  - destruct l as [|e' l]; simpl in Hr.
    + exfalso. apply (Hrest e); [|exact Ha]. rewrite <- Hr. left.
    + injection Hr as <- ->. apply Exists_app. left.
      eapply H; [reflexivity | exact Ha].
  - exfalso. apply (Hrest e); [|exact Ha]. rewrite Hr.
    apply elem_of_app. right. left.
Qed.

Lemma always_later_neutral mid : Forall (fun e => ~ a e) mid -> always_later a b mid.
Proof.
  intros H. rewrite <- (app_nil_r mid).
  apply always_later_app; [exact H | apply always_later_nil].
Qed.
End AlwaysLater.

Ltac exists_solve :=
  repeat first
    [ head_norm
    | apply Exists_cons_hd; lazy; exact I
    | apply Exists_cons_tl
    | apply Exists_app; right ].

Ltac later_solve :=
  repeat first
    [ head_norm
    | apply always_later_nil
    | apply always_later_app; [neutral_call |]
    | apply always_later_neutral; neutral_call
    | apply always_later_cons;
      [ let H := fresh in intros H; lazy in H; first [ solve [destruct H] | clear H; exists_solve ] | ] ].

(** ** Dry runs *)

Ltac disjoint_names :=
  apply (bool_decide_unpack _); vm_compute; exact I.

Ltac neutral_destructive :=
  from_footprint; intros ?; apply inside_disjoint; disjoint_names.

Ltac safe_solve :=
  repeat first
    [ head_norm
    | apply Forall_nil_2
    | apply Forall_cons_2; [lazy; tauto |]
    | apply Forall_app_2; [neutral_destructive |]
    | neutral_destructive ].

(** A dry run of [performSchemaMigration] adds no destructive event. *)
Lemma performSchemaMigration_dry_run_safe source dest options w env tr :
  DryRun options = true ->
  wp (performSchemaMigration source dest options) w env tr
     (fun _ evs _ => Forall (fun e => ~ destructive e) evs).
Proof.
  intros Hdry. repeat wp_step_with call_perform.
  all: try discriminate Hdry.
  all: unfold destructive; safe_solve.
Qed.

Ltac call_direct m :=
  lazymatch m with
  | createDestinationBackup (Some _) _ _ => use_returned createDestinationBackup_returns
  | _ => first [ call_some m | call_perform m ]
  end.

(** With a destination, a dry run calls the export once the directories
    exist, and after a successful export it calls the backup (when backups
    are enabled) and the rollback-script generation. *)
Lemma performSchemaMigration_dry_run_steps src dst options w env tr :
  DryRun options = true ->
  wp (performSchemaMigration (Some src) (Some dst) options) w env tr
     (fun _ evs _ =>
        always_later (is_success "createDirectories") (is_call "exportSchema") evs /\
        always_later (is_success "exportSchema") (is_call "generateRollbackScript") evs /\
        (CreateBackup options = true ->
         always_later (is_success "exportSchema")
                      (is_call "createDestinationBackup") evs)).
Proof.
  intros Hdry. repeat wp_step_with call_direct.
  all: try discriminate Hdry.
  all: split; [|split; [|intros Hb; try discriminate Hb]].
  all: later_solve.
Qed.

Lemma parseMigrationOptions_ok cmd options :
  parseMigrationOptions cmd = (options, None) ->
  options = Some {| Mode := mode cmd;
                    OutputDir := output_dir cmd;
                    CreateBackup := negb (no_backup cmd);
                    BackupDir := filepath.Join [output_dir cmd; "backup"];
                    IncludeRoles := include_roles cmd;
                    IncludeData := true;
                    DryRun := dry_run cmd |}.
Proof.
  unfold parseMigrationOptions. destruct (_ && _); intros H; congruence.
Qed.

(** Start the symbolic execution of a run: the options are those that
    the flags determine. *)
Ltac run_start :=
  unfold runSchemaMigration;
  let Hp := fresh "Hparse" in
  destruct (parseMigrationOptions _) as [? [?|]] eqn:Hp;
  [ | apply parseMigrationOptions_ok in Hp; subst ].

Ltac safe_run_solve :=
  repeat first
    [ head_norm
    | apply Forall_nil_2
    | apply Forall_cons_2; [lazy; tauto |]
    | apply Forall_app_2; [first [ neutral_destructive | eassumption ] |]
    | neutral_destructive
    | eassumption ].

Lemma run_dry_run_safe cmd w env :
  dry_run cmd = true ->
  wp (runSchemaMigration cmd) w env []
     (fun _ evs _ => Forall (fun e => ~ destructive e) evs).
Proof.
  intros Hdry. run_start.
  all: wp_run_by ltac:(apply performSchemaMigration_dry_run_safe; exact Hdry).
  all: unfold destructive in *; safe_run_solve.
Qed.

Ltac later_run_solve :=
  repeat first
    [ head_norm
    | apply always_later_nil
    | apply always_later_app; [neutral_call |]
    | apply always_later_neutral; neutral_call
    | apply always_later_app_r; [eassumption | concrete_neutral]
    | eassumption
    | apply always_later_cons;
      [ let H := fresh in intros H; lazy in H;
        first [ solve [destruct H] | clear H; exists_solve ] | ] ].

Lemma run_dry_run_steps cmd w env :
  dry_run cmd = true -> mode cmd = "direct" ->
  wp (runSchemaMigration cmd) w env []
     (fun _ evs _ =>
        always_later (is_success "createDirectories") (is_call "exportSchema") evs /\
        always_later (is_success "exportSchema") (is_call "generateRollbackScript") evs /\
        (no_backup cmd = false ->
         always_later (is_success "exportSchema")
                      (is_call "createDestinationBackup") evs)).
Proof.
  intros Hdry Hmode. run_start.
  all: wp_run_by ltac:(apply performSchemaMigration_dry_run_steps; exact Hdry).
  all: split; [|split; [|intros Hb]].
  all: try destruct HP as (HP1 & HP2 & HP3).
  all: try specialize (HP3 (f_equal negb Hb)).
  all: later_run_solve.
Qed.

(** C3, amended.  A dry run, in either mode, never calls drop, create,
    recreate or apply, executes no statement on the server and never runs
    [psql].  In direct mode a dry run calls the schema export as soon as
    its output directories are created, and once the export has succeeded
    it calls the rollback-script generation and, when backups are
    enabled, the destination backup. *)
Theorem dry_run_never_destructive w cmd env :
  dry_run cmd = true ->
  Forall (fun e => ~ destructive e) (run_events w cmd env) /\
  (mode cmd = "direct" ->
   always_later (is_success "createDirectories") (is_call "exportSchema")
                (run_events w cmd env) /\
   always_later (is_success "exportSchema") (is_call "generateRollbackScript")
                (run_events w cmd env) /\
   (no_backup cmd = false ->
    always_later (is_success "exportSchema") (is_call "createDestinationBackup")
                 (run_events w cmd env))).
Proof.
  intros Hdry. split.
  - apply (wp_run_events w cmd env _ (run_dry_run_safe cmd w env Hdry)).
  - intros Hmode.
    apply (wp_run_events w cmd env _ (run_dry_run_steps cmd w env Hdry Hmode)).
Qed.

Lemma dry_run_never_destructive_witness :
  Forall (fun e => ~ destructive e) (run_events happy (with_dry_run flags_direct) ∅) /\
  always_later (is_success "exportSchema") (is_call "createDestinationBackup")
               (run_events happy (with_dry_run flags_direct) ∅).
Proof.
  destruct (dry_run_never_destructive happy (with_dry_run flags_direct) ∅ eq_refl)
    as [Hsafe Hsteps].
  split; [exact Hsafe|].
  destruct (Hsteps eq_refl) as (_ & _ & Hbackup). exact (Hbackup eq_refl).
Defined.

(** The dry run in direct mode in which everything succeeds: the export
    succeeds, and the backup and the rollback-script generation are
    called. *)
Example dry_run_direct_happy :
  (run happy (with_dry_run flags_direct) ∅).1 = Val tt /\
  Exists (fun e => is_success "exportSchema" e)
         (run_events happy (with_dry_run flags_direct) ∅) /\
  Exists (fun e => is_call "createDestinationBackup" e)
         (run_events happy (with_dry_run flags_direct) ∅) /\
  Exists (fun e => is_call "generateRollbackScript" e)
         (run_events happy (with_dry_run flags_direct) ∅).
Proof. repeat split; by_computation. Qed.

(** C3 as stated fails in export mode: the dry run with backups enabled
    calls the export, and then neither the destination backup nor the
    rollback-script generation. *)
Lemma dry_run_export_mode_skips_backup :
  dry_run (with_dry_run flags_export) = true /\
  no_backup (with_dry_run flags_export) = false /\
  Exists (fun e => is_call "exportSchema" e)
         (run_events happy (with_dry_run flags_export) ∅) /\
  ~ Exists (fun e => is_call "createDestinationBackup" e)
           (run_events happy (with_dry_run flags_export) ∅) /\
  ~ Exists (fun e => is_call "generateRollbackScript" e)
           (run_events happy (with_dry_run flags_export) ∅).
Proof. repeat split; try reflexivity; by_computation. Qed.

(** ** Export mode *)

Ltac call_export m :=
  lazymatch m with
  | createDirectories _ => use_summary createDirectories_called
  | exportSchema _ _ _ => use_summary exportSchema_called
  end.

(** Without a destination, [performSchemaMigration] never returns [nil]:
    it fails before or in the export, or it dereferences the nil
    destination. *)
Lemma performSchemaMigration_nil_dest source options w env tr :
  wp (performSchemaMigration source None options) w env tr
     (fun o evs _ => (exists err, o = Val (Some err)) \/ o = Panic).
Proof.
  repeat wp_step_with call_export; eauto.
Qed.

Lemma run_export_mode cmd w env :
  mode cmd = "export" ->
  wp (runSchemaMigration cmd) w env []
     (fun o _ _ => o = Exit 1 \/ o = Panic).
Proof.
  intros Hmode. run_start.
  all: wp_run_by ltac:(apply performSchemaMigration_nil_dest).
  all: try destruct HP as [[? HP]|HP]; try discriminate HP; auto.

Qed.

(** C1.  The claim promises exit code 0 for every run in export mode.
    The code never delivers it: a run in export mode ends with
    [os.Exit(1)] or with a nil-pointer panic (exit code 2), whatever the
    collaborators answer. *)
Theorem export_mode_never_exits_zero w cmd env :
  mode cmd = "export" -> exit_code (run w cmd env).1 <> 0%Z.
Proof.
  intros Hmode.
  destruct (wp_run_events w cmd env _ (run_export_mode cmd w env Hmode)) as [H|H];
    rewrite H; discriminate.
Qed.

Lemma export_mode_never_exits_zero_witness :
  exit_code (run happy flags_export ∅).1 <> 0%Z.
Proof. exact (export_mode_never_exits_zero happy flags_export ∅ eq_refl). Defined.

(** The scenario of the claim, with every collaborator succeeding: the
    schema is exported to [out/schema_reports_<ts>.sql], no connection
    other than the one to the source database is opened, no file is
    written by the program itself, and then the run panics, right after
    [exportSchema] has returned, instead of exiting with code 0. *)
Example export_mode_happy_panics :
  let evs := run_events happy flags_export ∅ in
  (run happy flags_export ∅).1 = Panic /\
  last evs = Some (EvReturn "exportSchema" None) /\
  of_kind KDump evs =
    [EvRun "pg_dump"
       ["-h"; "localhost"; "-p"; "5432"; "-U"; "postgres"; "-d"; "reports";
        "-f"; "out/schema_reports_20250102_030405.sql";
        "--schema-only"; "--no-owner"; "--no-privileges"; "--verbose"; "--no-password"]
       (<["PGSSLMODE" := "require"]> (<["PGPASSWORD" := "secret"]> ∅)) None] /\
  of_kind KConn evs =
    [EvOpen "host=localhost port=5432 user=postgres password=secret dbname=reports sslmode=require" None;
     EvPing "host=localhost port=5432 user=postgres password=secret dbname=reports sslmode=require" None;
     EvClose "host=localhost port=5432 user=postgres password=secret dbname=reports sslmode=require"] /\
  of_kind KQuery evs = [] /\ of_kind KExec evs = [] /\
  of_kind KPsql evs = [] /\ of_kind KWrite evs = [].
Proof. repeat split; vm_compute; reflexivity. Qed.

(** ** SSL modes *)

Lemma validateSSLMode_iff sslMode :
  validateSSLMode sslMode = None <-> sslMode ∈ validModes.
Proof.
  unfold validateSSLMode, validModes, validateSSLMode_loop, Str.eqb.
  repeat case_bool_decide; subst.
  1-4: split; intros _; [by_computation | reflexivity].
  split; [discriminate|]. intros Hin.
  rewrite !elem_of_cons, elem_of_nil in Hin.
  destruct Hin as [?|[?|[?|[?|[]]]]]; contradiction.
Qed.

Lemma validateSSLMode_message sslMode :
  sslMode ∉ validModes ->
  validateSSLMode sslMode
  = Some "must be one of: disable, require, verify-ca, verify-full".
Proof.
  intros Hnot. destruct (validateSSLMode sslMode) as [msg|] eqn:Hv.
  - revert Hv. unfold validateSSLMode, validModes, validateSSLMode_loop.
    repeat destruct (Str.eqb _ _); intros Hv; try discriminate Hv.
    injection Hv as <-. reflexivity.
  - apply validateSSLMode_iff in Hv. contradiction.
Qed.

Ltac call_validate m :=
  lazymatch m with
  | validateSourceConnection _ => use_summary validateSourceConnection_called
  | validateConnections _ _ => use_summary validateConnections_called
  end.

(** An invalid source SSL mode ends the run before any connection. *)
Lemma run_invalid_source_ssl cmd w env msg :
  validateSSLMode (source_ssl cmd) = Some msg ->
  wp (runSchemaMigration cmd) w env []
     (fun o evs _ => o = Exit 1 /\ Forall (fun e => inside fp_offline e) evs).
Proof.
  intros Hssl. run_start.
  all: repeat wp_step_with call_validate.
  all: split; [reflexivity | fp_solve].
Qed.

Ltac call_source m :=
  lazymatch m with
  | getSourceConfig _ => use_config getSourceConfig_reads
  | validateSourceConnection _ => use_summary validateSourceConnection_called
  | performSchemaMigration _ _ _ => solve [wrong_mode]
  end.

(** In direct mode, so does an invalid destination SSL mode. *)
Lemma run_invalid_dest_ssl cmd w env msg :
  mode cmd = "direct" ->
  validateSSLMode (dest_ssl cmd) = Some msg ->
  wp (runSchemaMigration cmd) w env []
     (fun o evs _ => o = Exit 1 /\ Forall (fun e => inside fp_offline e) evs).
Proof.
  intros Hmode Hssl. run_start.
  all: repeat wp_step_with call_source.
  all: split; [reflexivity | fp_solve].
Qed.

(** C5.  [validateSSLMode] accepts exactly the strings [disable],
    [require], [verify-ca] and [verify-full].  Any other string, given as
    the source SSL mode or (in direct mode, where the destination flags are
    read) as the destination SSL mode, makes the run exit with code 1
    having only logged, prompted and read: no connection is opened and no
    tool is started. *)
Theorem ssl_mode_validation sslMode :
  (validateSSLMode sslMode = None <->
   sslMode ∈ ["disable"; "require"; "verify-ca"; "verify-full"]) /\
  (forall w cmd env,
     sslMode ∉ ["disable"; "require"; "verify-ca"; "verify-full"] ->
     source_ssl cmd = sslMode \/ (mode cmd = "direct" /\ dest_ssl cmd = sslMode) ->
     (run w cmd env).1 = Exit 1 /\
     Forall (fun e => inside fp_offline e) (run_events w cmd env)).
Proof.
  split; [apply validateSSLMode_iff|].
  intros w cmd env Hbad Hwhere. apply validateSSLMode_message in Hbad.
  destruct Hwhere as [<-|[Hmode <-]].
  - apply (wp_run_events w cmd env _ (run_invalid_source_ssl cmd w env _ Hbad)).
  - apply (wp_run_events w cmd env _ (run_invalid_dest_ssl cmd w env _ Hmode Hbad)).
Qed.

Lemma ssl_mode_validation_witness :
  validateSSLMode "foo" <> None /\
  (run happy flags_bad_ssl ∅).1 = Exit 1 /\
  Forall (fun e => inside fp_offline e) (run_events happy flags_bad_ssl ∅).
Proof.
  destruct (ssl_mode_validation "foo") as [Hiff Hrun]. split.
  - intros Hnone. apply Hiff in Hnone. revert Hnone. apply (bool_decide_unpack _).
    vm_compute. exact I.
  - apply (Hrun happy flags_bad_ssl ∅).
    + apply (bool_decide_unpack _). vm_compute. exact I.
    + left. reflexivity.
Defined.

(** The scenario of the specification: [--source-ssl foo]. *)
Example invalid_ssl_mode_foo :
  run happy flags_bad_ssl ∅ =
  (Exit 1,
   {| environ := ∅;
      trace := [EvCall "runSchemaMigration";
                EvLog INFO "Starting PostgreSQL schema migration...";
                EvLog ERROR "Failed to get source config: invalid source SSL mode: must be one of: disable, require, verify-ca, verify-full"] |}).
Proof. vm_compute. reflexivity. Qed.

(** ** Failures of the recreation *)

Lemma inside_not_reported F e :
  "dropDatabaseIfExists" ∉ fp_names F -> "createDatabase" ∉ fp_names F ->
  inside F e -> recreate_failure_report e = None.
Proof.
  intros Hd Hc H. destruct e; try reflexivity. simpl in *.
  apply bool_decide_unpack in H. unfold Str.eqb.
  repeat case_bool_decide; subst; try contradiction; reflexivity.
Qed.

Lemma after_none (a : Event -> bool) pat e : ~ a e -> after a pat e = None.
Proof. unfold after. destruct (a e); [intros H; destruct H; exact I | reflexivity]. Qed.

Ltac neutral_report :=
  from_footprint; intros ?;
  first [ apply inside_not_reported; not_in_list
        | let H := fresh in
          intros H; apply after_none; revert H;
          first [ apply inside_not_call | apply inside_not_success ]; not_in_list ].

Ltac next_step :=
  let pat := fresh "pat" in
  let H := fresh "H" in
  intros pat H; lazy in H;
  first [ discriminate H
        | injection H as <-; eexists; reflexivity ].

Ltac next_solve :=
  repeat first
    [ head_norm
    | apply always_next_nil
    | apply always_next_app; [neutral_report |]
    | apply always_next_neutral; neutral_report
    | apply always_next_cons; [next_step |] ].

Ltac unreported_solve :=
  repeat first
    [ head_norm
    | apply Forall_nil_2
    | apply Forall_cons_2; [lazy; reflexivity |]
    | apply Forall_app_2; [neutral_report |]
    | neutral_report ].

(** Symbolic execution of a run down to the calls that
    [performSchemaMigration] and [recreateDestinationDatabase] make. *)
Ltac call_deep m :=
  lazymatch m with
  | performSchemaMigration _ _ _ => fail
  | _ => first [ call_run ltac:(fail) m | call_mid m ]
  end.

Lemma run_recreate_failures cmd w env :
  wp (runSchemaMigration cmd) w env []
     (fun o evs _ =>
        preceded_by (is_success "dropDatabaseIfExists") (is_call "createDatabase") evs /\
        always_next (after (is_success "dropDatabaseIfExists") [EvCall "createDatabase"])
                    evs /\
        always_next recreate_failure_report evs /\
        (o = Exit 1 \/ Forall (fun e => recreate_failure_report e = None) evs)).
Proof.
  run_start.
  all: repeat wp_step_with call_deep.
  all: split; [apply preceded_by_from; pf_solve | split; [next_solve | split; [next_solve |]]].
  all: first [ left; reflexivity | right; unreported_solve ].
Qed.

(** C4, amended.  [recreateDestinationDatabase] composes
    [dropDatabaseIfExists] and [createDatabase]: create is called only
    after drop-if-exists has returned [nil], and right after it.  When
    either of them fails, its error is returned unchanged by
    [recreateDestinationDatabase], wrapped by [performSchemaMigration] as
    "failed to recreate destination database: ..." and logged by the run
    as "Schema migration failed: ...", and the run exits with code 1.  A
    create that fails after a successful drop is reported with the same
    label as a drop that fails. *)
Theorem recreate_failure_report_is_generic w cmd env :
  preceded_by (is_success "dropDatabaseIfExists") (is_call "createDatabase")
              (run_events w cmd env) /\
  always_next (after (is_success "dropDatabaseIfExists") [EvCall "createDatabase"])
              (run_events w cmd env) /\
  always_next recreate_failure_report (run_events w cmd env) /\
  ((run w cmd env).1 = Exit 1 \/
   Forall (fun e => recreate_failure_report e = None) (run_events w cmd env)).
Proof. apply (wp_run_events w cmd env _ (run_recreate_failures cmd w env)). Qed.

(** C4 as stated fails: when the create is refused after a successful
    drop, the destination is lost, and the run reports exactly what it
    reports when the drop is refused and the destination is untouched. *)
Lemma create_failure_reported_like_drop_failure :
  let lost := run (refusing "CREATE DATABASE ") flags_direct ∅ in
  let kept := run (refusing "DROP DATABASE ") flags_direct ∅ in
  dest_state (trace lost.2) = Dropped /\
  dest_state (trace kept.2) = Untouched /\
  lost.1 = Exit 1 /\ kept.1 = Exit 1 /\
  reports (trace lost.2) =
    [EvLog ERROR "Schema migration failed: failed to recreate destination database: permission denied"] /\
  reports (trace kept.2) = reports (trace lost.2).
Proof. repeat split; vm_compute; reflexivity. Qed.

(** ** The destination backup *)

Lemma always_next_app_r f evs rest :
  always_next f evs -> Forall (fun e => f e = None) rest -> always_next f (evs ++ rest).
Proof.
  intros H Hrest l1 e l2 pat Heq Hf. rewrite Forall_forall in Hrest.
  apply app_eq_app in Heq as [l [[-> Hr]|[-> Hr]]].
  - destruct l as [|e' l]; simpl in Hr.
    + assert (He : e ∈ rest) by (rewrite <- Hr; left).
      rewrite (Hrest e He) in Hf. discriminate Hf.
    + injection Hr as <- ->. destruct (H l1 e l pat eq_refl Hf) as [l3 ->].
      exists (l3 ++ rest). rewrite app_assoc. reflexivity.
  - assert (He : e ∈ rest) by (rewrite Hr; apply elem_of_app; right; left).
    rewrite (Hrest e He) in Hf. discriminate Hf.
Qed.

Lemma inside_not_backup_failure F e :
  "createDestinationBackup" ∉ fp_names F ->
  inside F e -> backup_failure_continues e = None.
Proof.
  intros Hn H. destruct e; try reflexivity. simpl in *.
  apply bool_decide_unpack in H. unfold Str.eqb.
  case_bool_decide; subst; try contradiction; reflexivity.
Qed.

Ltac neutral_next :=
  from_footprint; intros ?;
  first [ apply inside_not_reported; not_in_list
        | apply inside_not_backup_failure; not_in_list
        | let H := fresh in
          intros H; apply after_none; revert H;
          first [ apply inside_not_call | apply inside_not_success ]; not_in_list ].

Ltac next_solve2 :=
  repeat first
    [ head_norm
    | apply always_next_nil
    | apply always_next_app; [neutral_next |]
    | apply always_next_neutral; neutral_next
    | apply always_next_cons; [next_step |] ].

(** Symbolic execution of a run down to the calls that
    [performSchemaMigration] makes. *)
Ltac call_steps m :=
  lazymatch m with
  | performSchemaMigration _ _ _ => fail
  | _ => first [ call_run ltac:(fail) m | call_perform m ]
  end.

Lemma run_backup_failure cmd w env :
  dry_run cmd = false ->
  wp (runSchemaMigration cmd) w env []
     (fun _ evs _ =>
        always_next backup_failure_continues evs /\
        always_next (after (is_success "recreateDestinationDatabase")
                           [EvCall "applySchema"]) evs).
Proof.
  intros Hdry. run_start.
  all: repeat wp_step_with call_steps.
  all: split; next_solve2.
Qed.

(** C7.  In a run that is not a dry run, whenever the destination backup
    fails (returns an error), the warning "Backup creation failed
    (continuing): ..." is logged and [recreateDestinationDatabase] is
    called next; and whenever the recreation returns [nil], [applySchema]
    is called next.  (The backup is attempted in direct mode only.) *)
Theorem backup_failure_is_not_fatal w cmd env :
  dry_run cmd = false ->
  always_next backup_failure_continues (run_events w cmd env) /\
  always_next (after (is_success "recreateDestinationDatabase") [EvCall "applySchema"])
              (run_events w cmd env).
Proof.
  intros Hdry. apply (wp_run_events w cmd env _ (run_backup_failure cmd w env Hdry)).
Qed.

Lemma backup_failure_is_not_fatal_witness :
  always_next backup_failure_continues (run_events failing_backup flags_direct ∅) /\
  always_next (after (is_success "recreateDestinationDatabase") [EvCall "applySchema"])
              (run_events failing_backup flags_direct ∅).
Proof. exact (backup_failure_is_not_fatal failing_backup flags_direct ∅ eq_refl). Defined.

(** The direct run in which the dump of the destination fails: the
    failure is a warning, and the migration completes. *)
Example backup_failure_run :
  (run failing_backup flags_direct ∅).1 = Val tt /\
  reports (run_events failing_backup flags_direct ∅) =
    [EvLog WARNING "Backup creation failed (continuing): backup pg_dump failed: exit status 1"] /\
  Exists (fun e => is_success "recreateDestinationDatabase" e)
         (run_events failing_backup flags_direct ∅) /\
  Exists (fun e => is_success "applySchema" e)
         (run_events failing_backup flags_direct ∅).
Proof. repeat split; first [ vm_compute; reflexivity | by_computation ]. Qed.

Section AlwaysFollowed.
Context (a : Event -> bool) (P : list Event -> Prop).

Lemma always_followed_nil : always_followed a P [].
Proof. intros [|] ? ? H; discriminate H. Qed.

Lemma always_followed_cons e evs :
  (a e -> P evs) -> always_followed a P evs -> always_followed a P (e :: evs).
Proof.
  intros He H [|e' l1] e0 l2 Heq Ha; injection Heq as -> Heq.
  - subst l2. auto.
  - eapply H; eauto.
Qed.

Lemma always_followed_app mid evs :
  Forall (fun e => ~ a e) mid -> always_followed a P evs ->
  always_followed a P (mid ++ evs).
Proof.
  intros Hmid H. induction Hmid as [|e mid He _ IH]; [exact H|].
  apply always_followed_cons; [|exact IH]. intros Ha. contradiction.
Qed.

Lemma always_followed_neutral mid :
  Forall (fun e => ~ a e) mid -> always_followed a P mid.
Proof.
  intros H. rewrite <- (app_nil_r mid).
  apply always_followed_app; [exact H | apply always_followed_nil].
Qed.
End AlwaysFollowed.

Ltac call_absent m :=
  lazymatch m with
  | performSchemaMigration _ _ _ => fail
  | createDestinationBackup _ _ _ => fail
  | databaseExists _ => fail
  | _ => first [ call_run ltac:(fail) m | call_perform m ]
  end.

Ltac followed_solve :=
  repeat first
    [ head_norm
    | apply always_followed_nil
    | apply always_followed_app; [neutral_call |]
    | apply always_followed_neutral; neutral_call
    | apply always_followed_cons;
      [ let H := fresh in
        intros H; lazy in H;
        first [ solve [destruct H] | eexists _, _, _, _; reflexivity ] | ] ].

Lemma run_absent_destination cmd w env :
  dry_run cmd = false ->
  (forall t connStr, sql_open w t connStr = None) ->
  (forall t connStr query args, sql_query_bool w t connStr query args = Ok false) ->
  wp (runSchemaMigration cmd) w env []
     (fun _ evs _ =>
        always_followed (is_call "createDestinationBackup")
                        skips_backup_then_recreates evs).
Proof.
  intros Hdry Hopen Hquery. run_start.
  all: repeat wp_step_gen call_absent ltac:(
    let a := fresh "a" in
    let Ha := fresh "Ha" in
    intros a Ha;
    first [ rewrite Hopen in Ha; subst a
          | rewrite Hquery in Ha; subst a
          | clear Ha ]).
  all: followed_solve.
Qed.

Lemma run_backup_attempted cmd w env :
  mode cmd = "direct" -> no_backup cmd = false ->
  wp (runSchemaMigration cmd) w env []
     (fun _ evs _ =>
        always_later (is_success "exportSchema")
                     (is_call "createDestinationBackup") evs).
Proof.
  intros Hmode Hbackup. run_start.
  all: rewrite ?Hbackup; cbn [negb].
  all: repeat wp_step_with call_steps.
  all: later_solve.
Qed.

(** C8, amended.  In a run that is not a dry run, against a server that
    accepts connections and reports the destination database absent,
    every call of the destination backup consists of the existence check,
    the log line and the return of [nil] (no tool is run, so no backup
    file is written), and the recreation is called next; whenever the
    recreation returns [nil], [applySchema] is called next.  In direct
    mode with backups enabled the backup is called once the export has
    succeeded. *)
Theorem absent_destination_skips_backup w cmd env :
  dry_run cmd = false ->
  (forall t connStr, sql_open w t connStr = None) ->
  (forall t connStr query args, sql_query_bool w t connStr query args = Ok false) ->
  always_followed (is_call "createDestinationBackup") skips_backup_then_recreates
                  (run_events w cmd env) /\
  always_next (after (is_success "recreateDestinationDatabase") [EvCall "applySchema"])
              (run_events w cmd env) /\
  (mode cmd = "direct" -> no_backup cmd = false ->
   always_later (is_success "exportSchema") (is_call "createDestinationBackup")
                (run_events w cmd env)).
Proof.
  intros Hdry Hopen Hquery. split; [|split].
  - apply (wp_run_events w cmd env _
             (run_absent_destination cmd w env Hdry Hopen Hquery)).
  - apply (wp_run_events w cmd env _ (run_backup_failure cmd w env Hdry)).
  - intros Hmode Hbackup.
    apply (wp_run_events w cmd env _ (run_backup_attempted cmd w env Hmode Hbackup)).
Qed.

Lemma absent_destination_skips_backup_witness :
  always_followed (is_call "createDestinationBackup") skips_backup_then_recreates
                  (run_events absent flags_direct ∅) /\
  always_later (is_success "exportSchema") (is_call "createDestinationBackup")
               (run_events absent flags_direct ∅).
Proof.
  destruct (absent_destination_skips_backup absent flags_direct ∅ eq_refl
              (fun _ _ => eq_refl) (fun _ _ _ _ => eq_refl)) as (Hskip & _ & Hcalled).
  split; [exact Hskip | exact (Hcalled eq_refl eq_refl)].
Defined.

(** The direct run against a server without the destination database:
    only the export runs [pg_dump], and the migration completes. *)
Example absent_destination_run :
  (run absent flags_direct ∅).1 = Val tt /\
  length (of_kind KDump (run_events absent flags_direct ∅)) = 1 /\
  Exists (fun e => is_success "createDestinationBackup" e)
         (run_events absent flags_direct ∅) /\
  Exists (fun e => is_success "applySchema" e) (run_events absent flags_direct ∅).
Proof. repeat split; first [ vm_compute; reflexivity | by_computation ]. Qed.

(** C8 as stated fails for dry runs: with backups enabled and the
    destination database absent, the dry run skips the backup and then
    stops; it calls neither the recreation nor [applySchema]. *)
Lemma absent_destination_dry_run_stops :
  no_backup (with_dry_run flags_direct) = false /\
  Exists (fun e => is_success "createDestinationBackup" e)
         (run_events absent (with_dry_run flags_direct) ∅) /\
  ~ Exists (fun e => is_call "recreateDestinationDatabase" e)
           (run_events absent (with_dry_run flags_direct) ∅) /\
  ~ Exists (fun e => is_call "applySchema" e)
           (run_events absent (with_dry_run flags_direct) ∅).
Proof. repeat split; try reflexivity; by_computation. Qed.

(** ** Credentials of the external tools *)






(** ** Connections of the administrative operations *)

(** Membership in a list of connection strings, found by name: the
    strings are never unfolded. *)
Ltac conn_member :=
  lazymatch goal with
  | |- ?c ∈ ?a :: _ =>
      first [ constr_eq c a; apply list_elem_of_here
            | apply list_elem_of_further; conn_member ]
  end.

Ltac conn_event :=
  lazymatch goal with
  | |- connects_only _ (EvOpen _ _) => unfold connects_only, conn_of; conn_member
  | |- connects_only _ (EvClose _) => unfold connects_only, conn_of; conn_member
  | |- connects_only _ (EvPing _ _) => unfold connects_only, conn_of; conn_member
  | |- connects_only _ (EvQueryRow _ _ _ _) => unfold connects_only, conn_of; conn_member
  | |- connects_only _ (EvExec _ _ _ _) => unfold connects_only, conn_of; conn_member
  | |- connects_only _ _ => exact I
  end.

Ltac conn_solve :=
  repeat first
    [ apply Forall_nil_2
    | apply Forall_app_2
    | apply Forall_cons_2; [conn_event |] ].

Ltac opens_solve :=
  repeat first
    [ head_norm
    | apply Exists_cons_hd; apply bool_decide_pack; reflexivity
    | apply Exists_cons_tl
    | apply Exists_app; right ].

Lemma databaseExists_connection c w env tr :
  wp (databaseExists (Some c)) w env tr
     (fun _ evs _ =>
        Forall (connects_only [adminConnStr c]) evs /\
        Exists (fun e => opens (adminConnStr c) e) evs).
Proof. wp_run; (split; [conn_solve | opens_solve]). Qed.

Lemma dropDatabaseIfExists_connection c w env tr :
  wp (dropDatabaseIfExists (Some c)) w env tr
     (fun _ evs _ =>
        Forall (connects_only [adminConnStr c]) evs /\
        Exists (fun e => opens (adminConnStr c) e) evs).
Proof. wp_run; (split; [conn_solve | opens_solve]). Qed.

Lemma createDatabase_connection c w env tr :
  wp (createDatabase (Some c)) w env tr
     (fun _ evs _ =>
        Forall (connects_only [adminConnStr c]) evs /\
        Exists (fun e => opens (adminConnStr c) e) evs).
Proof. wp_run; (split; [conn_solve | opens_solve]). Qed.

Lemma validateConnections_connection source dest w env tr :
  wp (validateConnections (Some source) (Some dest)) w env tr
     (fun _ evs _ =>
        Forall (connects_only [sourceConnStr source; adminConnStr dest]) evs /\
        always_later (is_success "validateSourceConnection")
                     (opens (adminConnStr dest)) evs).
Proof.
  wp_run. all: split; [conn_solve |].
  all: repeat first
    [ head_norm
    | apply always_later_nil
    | apply always_later_cons;
      [ let H := fresh in
        intros H; lazy in H; first [ solve [destruct H] | clear H; opens_solve ] | ] ].
Qed.

Lemma append_empty_r (s : string) : s +:+ EmptyString = s.
Proof.
  induction s as [|a s IH]; [reflexivity|].
  change (String a (s +:+ EmptyString) = String a s). f_equal. exact IH.
Qed.

(** X2.  The connection string of the existence check, of the session
    termination, of [DROP DATABASE] and [CREATE DATABASE] and of the
    destination validation names the database [postgres] and is computed
    without the name of the destination database.  Every connection these
    operations open, ping, query, execute on or close is that one (the
    validation of both servers also uses the connection to the source
    database), and each of them opens it. *)
Theorem admin_operations_use_postgres c source w s :
  adminConnStr c =
    "host=" +:+ Host c +:+ " port=" +:+ Port c +:+ " user=" +:+ Username c +:+
    " password=" +:+ Password c +:+ " dbname=postgres sslmode=" +:+ SSLMode c /\
  (forall d, adminConnStr (with_database d c) = adminConnStr c) /\
  (Forall (connects_only [adminConnStr c]) (events_of (databaseExists (Some c)) w s) /\
   Exists (fun e => opens (adminConnStr c) e) (events_of (databaseExists (Some c)) w s)) /\
  (Forall (connects_only [adminConnStr c])
          (events_of (dropDatabaseIfExists (Some c)) w s) /\
   Exists (fun e => opens (adminConnStr c) e)
          (events_of (dropDatabaseIfExists (Some c)) w s)) /\
  (Forall (connects_only [adminConnStr c]) (events_of (createDatabase (Some c)) w s) /\
   Exists (fun e => opens (adminConnStr c) e) (events_of (createDatabase (Some c)) w s)) /\
  (Forall (connects_only [sourceConnStr source; adminConnStr c])
          (events_of (validateConnections (Some source) (Some c)) w s) /\
   always_later (is_success "validateSourceConnection") (opens (adminConnStr c))
                (events_of (validateConnections (Some source) (Some c)) w s)).
Proof.
  split.
  { unfold adminConnStr. rewrite <- (append_empty_r (SSLMode c)) at 2. reflexivity. }
  split.
  { intros d. unfold adminConnStr, with_database.
    cbn [Host Port Username Password SSLMode]. reflexivity. }
  repeat apply conj.
  - exact (proj1 (wp_events _ w s _
             (databaseExists_connection c w (environ s) (trace s)))).
  - exact (proj2 (wp_events _ w s _
             (databaseExists_connection c w (environ s) (trace s)))).
  - exact (proj1 (wp_events _ w s _
             (dropDatabaseIfExists_connection c w (environ s) (trace s)))).
  - exact (proj2 (wp_events _ w s _
             (dropDatabaseIfExists_connection c w (environ s) (trace s)))).
  - exact (proj1 (wp_events _ w s _
             (createDatabase_connection c w (environ s) (trace s)))).
  - exact (proj2 (wp_events _ w s _
             (createDatabase_connection c w (environ s) (trace s)))).
  - exact (proj1 (wp_events _ w s _
             (validateConnections_connection source c w (environ s) (trace s)))).
  - exact (proj2 (wp_events _ w s _
             (validateConnections_connection source c w (environ s) (trace s)))).
Qed.

Lemma removeFromSlice_loop_filter slice item result :
  removeFromSlice_loop slice item result
  = result ++ List.filter (fun s => negb (Str.eqb s item)) slice.
Proof.
  revert result. induction slice as [|s rest IH]; intros result; simpl.
  - rewrite app_nil_r. reflexivity.
  - destruct (negb (Str.eqb s item)); rewrite IH; [rewrite <- app_assoc|]; reflexivity.
Qed.

Lemma removeFromSlice_filter slice item :
  removeFromSlice slice item = List.filter (fun s => negb (Str.eqb s item)) slice.
Proof. unfold removeFromSlice. rewrite removeFromSlice_loop_filter. reflexivity. Qed.

Lemma removeFromSlice_cons s slice item :
  removeFromSlice (s :: slice) item
  = if Str.eqb s item then removeFromSlice slice item
    else s :: removeFromSlice slice item.
Proof. rewrite !removeFromSlice_filter. simpl. destruct (Str.eqb s item); reflexivity. Qed.

Lemma removeFromSlice_elem s slice item :
  (s ∈ removeFromSlice slice item) <-> (s ∈ slice /\ s <> item).
Proof.
  induction slice as [|x rest IH].
  - split; [intros H | intros [H _]]; inversion H.
  - rewrite removeFromSlice_cons. unfold Str.eqb. case_bool_decide as Hx.
    + rewrite IH, elem_of_cons. subst x. intuition congruence.
    + rewrite !elem_of_cons, IH. intuition congruence.
Qed.

(** X3.  [removeFromSlice] removes every occurrence of the item, not only
    the first: the item does not occur in the result; every other string
    occurs in the result exactly when it occurs in the slice; the result
    keeps the order of the slice; a slice without the item is returned
    unchanged; and removing the item a second time changes nothing. *)
Theorem removeFromSlice_removes_every_occurrence slice item :
  (item ∉ removeFromSlice slice item) /\
  (forall s, s <> item -> ((s ∈ removeFromSlice slice item) <-> (s ∈ slice))) /\
  (removeFromSlice slice item `sublist_of` slice) /\
  ((item ∉ slice) <-> removeFromSlice slice item = slice) /\
  removeFromSlice (removeFromSlice slice item) item = removeFromSlice slice item.
Proof.
  assert (Hkeep : forall l, item ∉ l -> removeFromSlice l item = l).
  { induction l as [|x rest IH]; [reflexivity|]. intros Hn.
    rewrite removeFromSlice_cons. unfold Str.eqb. case_bool_decide as Hx.
    - exfalso. apply Hn. subst x. left.
    - rewrite IH; [reflexivity|]. intros Hin. apply Hn. right. exact Hin. }
  assert (Hnot : item ∉ removeFromSlice slice item).
  { intros Hin. apply removeFromSlice_elem in Hin as [_ Hne]. congruence. }
  split; [exact Hnot|]. split; [|split; [|split]].
  - intros s Hne. rewrite removeFromSlice_elem. intuition.
  - induction slice as [|x rest IH]; [constructor|].
    rewrite removeFromSlice_cons. destruct (Str.eqb x item).
    + apply sublist_cons. apply IH. intros Hin.
      apply removeFromSlice_elem in Hin as [_ Hne]. congruence.
    + apply sublist_skip. apply IH. intros Hin.
      apply removeFromSlice_elem in Hin as [_ Hne]. congruence.
  - split; [apply Hkeep|]. intros Heq. rewrite <- Heq. exact Hnot.
  - apply Hkeep. exact Hnot.
Qed.

Lemma removeFromSlice_removes_every_occurrence_witness :
  "--verbose" ∈ removeFromSlice ["--no-privileges"; "--verbose"; "--no-privileges"]
                                "--no-privileges".
Proof.
  destruct (removeFromSlice_removes_every_occurrence
              ["--no-privileges"; "--verbose"; "--no-privileges"] "--no-privileges")
    as (_ & H & _).
  apply H; [discriminate | by_computation].
Defined.

Lemma removeFromSlice_keep s slice item r :
  s <> item -> removeFromSlice slice item = r -> removeFromSlice (s :: slice) item = s :: r.
Proof.
  intros Hne <-. rewrite removeFromSlice_cons. unfold Str.eqb.
  rewrite bool_decide_eq_false_2 by exact Hne. reflexivity.
Qed.

Lemma removeFromSlice_drop slice item r :
  removeFromSlice slice item = r -> removeFromSlice (item :: slice) item = r.
Proof.
  intros <-. rewrite removeFromSlice_cons. unfold Str.eqb.
  rewrite bool_decide_eq_true_2 by reflexivity. reflexivity.
Qed.

Lemma exportArgs_plain c f o :
  IncludeRoles o = false ->
  exportArgs c f o =
    ["-h"; Host c; "-p"; Port c; "-U"; Username c; "-d"; Database c; "-f"; f;
     "--schema-only"; "--no-owner"; "--no-privileges"; "--verbose"; "--no-password"].
Proof. intros H. unfold exportArgs. rewrite H. reflexivity. Qed.

(** X4.  The schema export is a schema-only dump in every case: the
    arguments of its [pg_dump] contain [--schema-only], [--no-owner] and
    [--no-password] whatever the configuration and the options are.
    [--no-privileges] is among them exactly when roles are not included.
    With roles included the arguments are the same list without
    [--no-privileges], provided that none of the five values (host, port,
    user, database, output file) is itself the string [--no-privileges]:
    such a value would be removed with the flag. *)
Theorem exportArgs_schema_only c f o :
  "--schema-only" ∈ exportArgs c f o /\
  "--no-owner" ∈ exportArgs c f o /\
  "--no-password" ∈ exportArgs c f o /\
  (("--no-privileges" ∈ exportArgs c f o) <-> IncludeRoles o = false) /\
  (IncludeRoles o = true ->
   Forall (fun v => v <> "--no-privileges") [Host c; Port c; Username c; Database c; f] ->
   exportArgs c f o =
     ["-h"; Host c; "-p"; Port c; "-U"; Username c; "-d"; Database c; "-f"; f;
      "--schema-only"; "--no-owner"; "--verbose"; "--no-password"]).
Proof.
  destruct (IncludeRoles o) eqn:Hroles.
  - unfold exportArgs. rewrite Hroles.
    repeat split; try (apply removeFromSlice_elem; split; [|discriminate];
                       rewrite !elem_of_cons; tauto).
    + intros Hin. apply removeFromSlice_elem in Hin as [_ Hne]. congruence.
    + discriminate.
    + intros _ Hv. rewrite !Forall_cons in Hv.
      destruct Hv as (Hh & Hp & Hu & Hd & Hf & _).
      repeat first [ apply removeFromSlice_drop
                   | apply removeFromSlice_keep; [first [assumption | discriminate] |] ].
      reflexivity.
  - rewrite (exportArgs_plain c f o Hroles).
    repeat split; try (rewrite !elem_of_cons; tauto). discriminate.
Qed.

Lemma exportArgs_schema_only_witness :
  exportArgs (mkConfig "db.internal" "5432" "postgres" "secret" "shop_prod" "require")
             "out/schema.sql"
             (mkOptions "direct" "out" true "out/backup" true true false) =
  ["-h"; "db.internal"; "-p"; "5432"; "-U"; "postgres"; "-d"; "shop_prod";
   "-f"; "out/schema.sql"; "--schema-only"; "--no-owner"; "--verbose"; "--no-password"].
Proof.
  apply (exportArgs_schema_only
           (mkConfig "db.internal" "5432" "postgres" "secret" "shop_prod" "require")
           "out/schema.sql" (mkOptions "direct" "out" true "out/backup" true true false)).
  - reflexivity.
  - repeat (apply Forall_cons_2; [discriminate|]). apply Forall_nil_2.
Defined.

(** A database that is named like the flag loses its place on the
    command line when roles are included. *)
Example exportArgs_database_named_like_flag :
  exportArgs (mkConfig "h" "5432" "u" "secret" "--no-privileges" "require") "f.sql"
             (mkOptions "direct" "out" true "out/backup" true true false) =
  ["-h"; "h"; "-p"; "5432"; "-U"; "u"; "-d"; "-f"; "f.sql";
   "--schema-only"; "--no-owner"; "--verbose"; "--no-password"].
Proof. vm_compute. reflexivity. Qed.

Lemma parseMigrationOptions_mode cmd :
  (mode cmd = "direct" \/ mode cmd = "export") ->
  parseMigrationOptions cmd =
    (Some {| Mode := mode cmd;
             OutputDir := output_dir cmd;
             CreateBackup := negb (no_backup cmd);
             BackupDir := filepath.Join [output_dir cmd; "backup"];
             IncludeRoles := include_roles cmd;
             IncludeData := true;
             DryRun := dry_run cmd |}, None).
Proof.
  intros Hm. unfold parseMigrationOptions, Str.eqb.
  destruct Hm as [Hm|Hm]; rewrite Hm; reflexivity.
Qed.

Lemma parseMigrationOptions_bad_mode cmd :
  mode cmd <> "direct" -> mode cmd <> "export" ->
  parseMigrationOptions cmd = (None, Some "mode must be 'direct' or 'export'").
Proof.
  intros Hd He. unfold parseMigrationOptions, Str.eqb.
  rewrite !bool_decide_eq_false_2 by assumption. reflexivity.
Qed.

(** X5.  [parseMigrationOptions] fails exactly when the mode is neither
    [direct] nor [export]; comparison is exact, so [Direct] or [ export]
    are rejected.  The run then exits with code 1 having logged two lines:
    nothing is prompted for, no connection is opened, and the environment
    is left as it was. *)
Theorem unknown_mode_is_rejected w cmd env :
  (snd (parseMigrationOptions cmd) = None <-> (mode cmd = "direct" \/ mode cmd = "export")) /\
  (fst (parseMigrationOptions cmd) = None <-> snd (parseMigrationOptions cmd) <> None) /\
  (mode cmd <> "direct" -> mode cmd <> "export" ->
   run w cmd env =
     (Exit 1,
      {| environ := env;
         trace := [EvCall "runSchemaMigration";
                   EvLog INFO "Starting PostgreSQL schema migration...";
                   EvLog ERROR "Failed to parse options: mode must be 'direct' or 'export'"] |})).
Proof.
  destruct (decide (mode cmd = "direct" \/ mode cmd = "export")) as [Hm|Hm].
  - rewrite (parseMigrationOptions_mode cmd Hm). simpl.
    split; [|split].
    + split; [intros _; exact Hm | reflexivity].
    + split; [discriminate | intros H; exfalso; apply H; reflexivity].
    + intros Hd He. destruct Hm; contradiction.
  - assert (Hd : mode cmd <> "direct") by tauto.
    assert (He : mode cmd <> "export") by tauto.
    split; [|split].
    + rewrite (parseMigrationOptions_bad_mode cmd Hd He). simpl.
      split; [discriminate | intros H; contradiction].
    + rewrite (parseMigrationOptions_bad_mode cmd Hd He). simpl.
      split; [discriminate | reflexivity].
    + intros _ _. unfold run, runSchemaMigration.
      rewrite (parseMigrationOptions_bad_mode cmd Hd He). reflexivity.
Qed.

Lemma unknown_mode_is_rejected_witness :
  (run happy (mkFlags "localhost" "5432" "postgres" "shop_prod" "require"
                      "localhost" "5432" "postgres" "shop_staging" "require"
                      "Direct" "./out" false false false) ∅).1 = Exit 1.
Proof.
  destruct (unknown_mode_is_rejected happy
              (mkFlags "localhost" "5432" "postgres" "shop_prod" "require"
                       "localhost" "5432" "postgres" "shop_staging" "require"
                       "Direct" "./out" false false false) ∅) as (_ & _ & H).
  rewrite H; [reflexivity | discriminate | discriminate].
Defined.

(** X6.  The options of a run always ask for data in the backup
    ([IncludeData] is set to [true] by [parseMigrationOptions] and never
    changed), so the backup of the destination is a full dump: the
    arguments of its [pg_dump] are exactly the connection values, the
    backup file, [--verbose] and [--no-password], and [--schema-only] is
    never appended. *)
Theorem backup_is_a_full_dump cmd options c backupFile :
  parseMigrationOptions cmd = (Some options, None) ->
  IncludeData options = true /\
  backupArgs c backupFile options =
    ["-h"; Host c; "-p"; Port c; "-U"; Username c; "-d"; Database c;
     "-f"; backupFile; "--verbose"; "--no-password"].
Proof.
  intros Hp. apply parseMigrationOptions_ok in Hp. injection Hp as ->.
  split; reflexivity.
Qed.

Lemma backup_is_a_full_dump_witness :
  backupArgs (mkConfig "localhost" "5432" "postgres" "secret" "shop_staging" "require")
             "out/backup/backup_shop_staging_20250102_030405.sql"
             (mkOptions "direct" "./out" true "out/backup" false true false) =
    ["-h"; "localhost"; "-p"; "5432"; "-U"; "postgres"; "-d"; "shop_staging";
     "-f"; "out/backup/backup_shop_staging_20250102_030405.sql";
     "--verbose"; "--no-password"].
Proof.
  apply (backup_is_a_full_dump flags_direct
           (mkOptions "direct" "./out" true "out/backup" false true false)
           (mkConfig "localhost" "5432" "postgres" "secret" "shop_staging" "require")
           "out/backup/backup_shop_staging_20250102_030405.sql").
  vm_compute. reflexivity.
Defined.

(** ** Reading the configurations *)

Lemma validateSSLMode_cases sslMode :
  (validateSSLMode sslMode = None /\ sslMode ∈ validModes) \/
  (validateSSLMode sslMode = Some "must be one of: disable, require, verify-ca, verify-full" /\
   (sslMode ∉ validModes)).
Proof.
  destruct (decide (sslMode ∈ validModes)) as [Hin|Hnot].
  - left. split; [apply validateSSLMode_iff|]; exact Hin.
  - right. split; [apply validateSSLMode_message|]; exact Hnot.
Qed.

Lemma eqb_true a b : Str.eqb a b = true -> a = b.
Proof. apply bool_decide_eq_true_1. Qed.

Lemma eqb_false a b : Str.eqb a b = false -> a <> b.
Proof. apply bool_decide_eq_false_1. Qed.

Ltac read_solve :=
  lazymatch goal with
  | |- _ /\ _ => split; read_solve
  | |- exists _, _ => eexists; read_solve
  | |- _ \/ _ => first [ solve [left; read_solve] | solve [right; read_solve] ]
  | |- _ => first [ reflexivity | assumption | progress (lazy beta iota); read_solve ]
  end.

Ltac read_facts :=
  repeat match goal with
         | H : Str.eqb ?a ?b = _ |- context [Str.eqb ?a ?b] => rewrite H
         end;
  repeat match goal with
         | H : Str.eqb _ _ = true |- _ => apply eqb_true in H
         | H : Str.eqb _ _ = false |- _ => apply eqb_false in H
         end;
  unfold lines_read, passwords_read; cbn [omap list_omap app].

Lemma getSourceConfig_read cmd w env tr :
  wp (getSourceConfig cmd) w env tr (fun o evs _ => source_config_read cmd o evs).
Proof.
  unfold getSourceConfig.
  destruct (validateSSLMode_cases (source_ssl cmd)) as [[Hv Hin]|[Hv Hnot]];
    lazy zeta; rewrite Hv.
  - wp_run; (split; [reflexivity|]); eexists _, _; (split; [reflexivity|]);
      read_facts; read_solve.
  - wp_run. unfold source_config_read. read_solve.
Qed.


(** X7.  [getSourceConfig] never reads a line from standard input.  It
    returns either a configuration or an error, never both and never
    neither.  The configuration has the host, port, user, database and
    SSL mode of the source flags, a valid SSL mode, and the password that
    was read from the terminal.  An invalid SSL mode is reported before
    anything is printed or read; a failed password read is reported with
    its cause. *)
Theorem source_config_from_flags cmd w s :
  source_config_read cmd (getSourceConfig cmd w s).1 (events_of (getSourceConfig cmd) w s).
Proof. apply (wp_events _ w s _ (getSourceConfig_read cmd w (environ s) (trace s))). Qed.


(** The operator answers [2] and a name surrounded by white space. *)
Example dest_config_renamed :
  (getDestConfig (default_flags "shop_prod") "shop_prod" renaming (start ∅)).1 =
  Val (Some (mkConfig "localhost" "5432" "postgres" "secret" "shop_copy" "require"), None).
Proof. vm_compute. reflexivity. Qed.

(** ** The connection discipline *)

Lemma eqb_refl (a : string) : Str.eqb a a = true.
Proof. apply bool_decide_eq_true_2. reflexivity. Qed.

Lemma conn_step_neutral F st e :
  KConn ∉ fp_kinds F -> KQuery ∉ fp_kinds F -> KExec ∉ fp_kinds F ->
  inside F e -> conn_step st e = st.
Proof.
  intros Hc Hq He H. destruct e; simpl in *; try reflexivity;
    apply bool_decide_unpack in H; contradiction.
Qed.

Lemma conn_neutral F mid st :
  KConn ∉ fp_kinds F -> KQuery ∉ fp_kinds F -> KExec ∉ fp_kinds F ->
  Forall (fun e => inside F e) mid -> fold_left conn_step mid st = st.
Proof.
  intros Hc Hq He H. revert st. induction H as [|e mid Hin _ IH]; intros st; [reflexivity|].
  simpl. rewrite (conn_step_neutral F st e Hc Hq He Hin). apply IH.
Qed.

Lemma conn_misused evs : fold_left conn_step evs Misused = Misused.
Proof. induction evs as [|e evs IH]; [reflexivity|]. destruct e; exact IH. Qed.

Lemma conn_state_prefix l1 l2 : conn_state (l1 ++ l2) = NoConn -> conn_state l1 <> Misused.
Proof.
  unfold conn_state. rewrite fold_left_app. intros H Hm. rewrite Hm, conn_misused in H.
  discriminate H.
Qed.

Ltac conn_same :=
  match goal with
  | |- context [Str.eqb ?a ?b] => constr_eq a b; rewrite (eqb_refl a)
  end.

Ltac conn_run :=
  repeat first
    [ progress cbn [fold_left conn_step on_conn app]
    | rewrite fold_left_app
    | conn_same
    | match goal with
      | H : fold_left conn_step ?l NoConn = NoConn |- context [fold_left conn_step ?l NoConn] =>
          rewrite H
      | H : Forall ?P ?l |- context [fold_left conn_step ?l ?st] =>
          lazymatch P with
          | (fun e => Is_true (inside ?F _)) =>
              rewrite (conn_neutral F l st) by first [ exact H | not_in_list ]
          end
      end ].

Lemma validateSourceConnection_conn source w env tr :
  wp (validateSourceConnection source) w env tr
     (fun _ evs _ => fold_left conn_step evs NoConn = NoConn).
Proof. wp_run; conn_run; reflexivity. Qed.

Lemma validateConnections_conn source dest w env tr :
  wp (validateConnections source dest) w env tr
     (fun _ evs _ => fold_left conn_step evs NoConn = NoConn).
Proof. wp_run; conn_run; reflexivity. Qed.

Lemma databaseExists_conn config w env tr :
  wp (databaseExists config) w env tr
     (fun _ evs _ => fold_left conn_step evs NoConn = NoConn).
Proof. wp_run; conn_run; reflexivity. Qed.

Lemma createDatabase_conn config w env tr :
  wp (createDatabase config) w env tr
     (fun _ evs _ => fold_left conn_step evs NoConn = NoConn).
Proof. wp_run; conn_run; reflexivity. Qed.

Lemma dropDatabaseIfExists_conn config w env tr :
  wp (dropDatabaseIfExists config) w env tr
     (fun _ evs _ => fold_left conn_step evs NoConn = NoConn).
Proof. wp_run; conn_run; reflexivity. Qed.

Ltac use_conn lem :=
  eapply wp_mono; [apply lem |];
  let H := fresh "Hconn" in
  intros [?r| |?c] ? ? H.

Ltac call_conn m :=
  lazymatch m with
  | validateSourceConnection _ => use_conn validateSourceConnection_conn
  | validateConnections _ _ => use_conn validateConnections_conn
  | databaseExists _ => use_conn databaseExists_conn
  | createDatabase _ => use_conn createDatabase_conn
  | dropDatabaseIfExists _ => use_conn dropDatabaseIfExists_conn
  | createDirectories _ => use_summary createDirectories_called
  | exportSchema _ _ _ => use_summary exportSchema_called
  | applySchema _ _ => use_summary applySchema_called
  | generateRollbackScript _ _ _ => use_summary generateRollbackScript_called
  | getSourceConfig _ => use_config getSourceConfig_reads
  | getDestConfig _ _ => use_config getDestConfig_reads
  end.

Lemma performSchemaMigration_conn source dest options w env tr :
  wp (performSchemaMigration source dest options) w env tr
     (fun _ evs _ => fold_left conn_step evs NoConn = NoConn).
Proof. repeat wp_step_with call_conn; conn_run; reflexivity. Qed.

Ltac call_conn_run m :=
  lazymatch m with
  | performSchemaMigration _ _ _ =>
      first [ solve [wrong_mode] | use_conn performSchemaMigration_conn ]
  | _ => call_conn m
  end.

Lemma run_conn cmd w env :
  wp (runSchemaMigration cmd) w env []
     (fun _ evs _ => fold_left conn_step evs NoConn = NoConn).
Proof.
  run_start.
  all: repeat wp_step_with call_conn_run.
  all: conn_run; reflexivity.
Qed.

(** X9.  In every run, however it ends (by return, by [os.Exit] or by a
    panic), the process holds at most one database connection at a time:
    a connection is opened only when none is held; every ping, query and
    statement goes to the connection that is held; every connection that
    was opened successfully is closed (the deferred [Close] runs on every
    path, and [os.Exit] is only called between two operations); and at
    the end of the run no connection is held. *)
Theorem connections_are_closed w cmd env :
  conn_state (run_events w cmd env) = NoConn /\
  (forall l1 l2, run_events w cmd env = l1 ++ l2 -> conn_state l1 <> Misused).
Proof.
  assert (H : conn_state (run_events w cmd env) = NoConn).
  { apply (wp_run_events w cmd env _ (run_conn cmd w env)). }
  split; [exact H|]. intros l1 l2 Heq. rewrite Heq in H.
  apply (conn_state_prefix l1 l2 H).
Qed.

Lemma connections_are_closed_witness :
  conn_state (take 12 (run_events happy flags_direct ∅)) <> Misused.
Proof.
  destruct (connections_are_closed happy flags_direct ∅) as [_ H].
  apply (H _ (drop 12 (run_events happy flags_direct ∅))).
  symmetry. apply take_drop.
Defined.

(** The direct run in which everything succeeds opens six connections. *)
Example connections_of_happy_run :
  length (List.filter (fun e => match e with EvOpen _ None => true | _ => false end)
            (run_events happy flags_direct ∅)) = 6 /\
  length (List.filter (fun e => match e with EvClose _ => true | _ => false end)
            (run_events happy flags_direct ∅)) = 6.
Proof. split; vm_compute; reflexivity. Qed.

(** ** The environment *)

Lemma without_tool_variables_lookup env k :
  without_tool_variables env !! k =
  if bool_decide (k = "PGPASSWORD") || bool_decide (k = "PGSSLMODE") then None else env !! k.
Proof.
  unfold without_tool_variables. case_bool_decide as Hp; simpl.
  - subst k. apply lookup_delete_eq.
  - rewrite lookup_delete_ne by congruence. case_bool_decide as Hs.
    + subst k. apply lookup_delete_eq.
    + apply lookup_delete_ne. congruence.
Qed.

Lemma without_tool_variables_set env p s :
  delete "PGPASSWORD" (delete "PGSSLMODE" (<["PGSSLMODE" := s]> (<["PGPASSWORD" := p]> env)))
  = without_tool_variables env.
Proof.
  apply map_eq. intros k.
  change (without_tool_variables (<["PGSSLMODE" := s]> (<["PGPASSWORD" := p]> env)) !! k
          = without_tool_variables env !! k).
  rewrite !without_tool_variables_lookup.
  case_bool_decide as Hp; simpl; [reflexivity|].
  case_bool_decide as Hs; [reflexivity|].
  rewrite !lookup_insert_ne by congruence. reflexivity.
Qed.

Lemma without_tool_variables_idem env :
  without_tool_variables (without_tool_variables env) = without_tool_variables env.
Proof.
  apply map_eq. intros k. rewrite !without_tool_variables_lookup.
  destruct (_ || _); reflexivity.
Qed.

Lemma env_effect_nil env : env_effect env env [].
Proof. left. split; [reflexivity | apply Forall_nil_2]. Qed.

Lemma env_effect_cons env e evs env' :
  ~ is_tool_run e -> env_effect env env' evs -> env_effect env env' (e :: evs).
Proof.
  intros He [[-> H]|[-> H]]; [left | right]; (split; [reflexivity|]).
  - apply Forall_cons_2; assumption.
  - apply Exists_cons_tl. exact H.
Qed.

Lemma env_effect_app env evs1 env1 evs2 env2 :
  env_effect env env1 evs1 -> env_effect env1 env2 evs2 ->
  env_effect env env2 (evs1 ++ evs2).
Proof.
  intros [[-> H1]|[-> H1]] [[-> H2]|[-> H2]].
  - left. split; [reflexivity | apply Forall_app_2; assumption].
  - right. split; [reflexivity | apply Exists_app; right; exact H2].
  - right. split; [reflexivity | apply Exists_app; left; exact H1].
  - right. split; [apply without_tool_variables_idem | apply Exists_app; left; exact H1].
Qed.

Ltac env_solve :=
  repeat first
    [ head_norm
    | apply env_effect_nil
    | apply env_effect_cons; [lazy; tauto |]
    | match goal with
      | H : env_effect ?env ?env1 ?l |- env_effect ?env _ (?l ++ _) =>
          apply (env_effect_app env l env1 _ _ H)
      | H : env_effect ?env ?env1 ?l |- env_effect ?env ?env1 ?l => exact H
      end
    | right; split; [apply without_tool_variables_set | exists_solve] ].

Ltac use_env lem :=
  eapply wp_mono; [apply lem |];
  let H := fresh "Henv" in
  intros [?r| |?c] ? ? H.

Lemma createDirectories_env options w env tr :
  wp (createDirectories options) w env tr (fun _ evs env' => env_effect env env' evs).
Proof. wp_run; env_solve. Qed.

Lemma exportSchema_env config outputFile options w env tr :
  wp (exportSchema config outputFile options) w env tr
     (fun _ evs env' => env_effect env env' evs).
Proof. wp_run; env_solve. Qed.

Lemma applySchema_env config schemaFile w env tr :
  wp (applySchema config schemaFile) w env tr (fun _ evs env' => env_effect env env' evs).
Proof. wp_run; env_solve. Qed.

Lemma databaseExists_env config w env tr :
  wp (databaseExists config) w env tr (fun _ evs env' => env_effect env env' evs).
Proof. wp_run; env_solve. Qed.

Lemma createDatabase_env config w env tr :
  wp (createDatabase config) w env tr (fun _ evs env' => env_effect env env' evs).
Proof. wp_run; env_solve. Qed.

Lemma generateRollbackScript_env config backupFile options w env tr :
  wp (generateRollbackScript config backupFile options) w env tr
     (fun _ evs env' => env_effect env env' evs).
Proof. wp_run; env_solve. Qed.

Lemma validateSourceConnection_env source w env tr :
  wp (validateSourceConnection source) w env tr (fun _ evs env' => env_effect env env' evs).
Proof. wp_run; env_solve. Qed.

Lemma validateConnections_env source dest w env tr :
  wp (validateConnections source dest) w env tr (fun _ evs env' => env_effect env env' evs).
Proof. wp_run; env_solve. Qed.

Lemma getSourceConfig_env cmd w env tr :
  wp (getSourceConfig cmd) w env tr (fun _ evs env' => env_effect env env' evs).
Proof. wp_run; env_solve. Qed.

Lemma getDestConfig_env cmd sourceDBName w env tr :
  wp (getDestConfig cmd sourceDBName) w env tr (fun _ evs env' => env_effect env env' evs).
Proof. wp_run; env_solve. Qed.

Ltac call_env_leaf m :=
  lazymatch m with
  | databaseExists _ => use_env databaseExists_env
  | createDatabase _ => use_env createDatabase_env
  end.

Lemma createDestinationBackup_env config backupFile options w env tr :
  wp (createDestinationBackup config backupFile options) w env tr
     (fun _ evs env' => env_effect env env' evs).
Proof. repeat wp_step_with call_env_leaf; env_solve. Qed.

Lemma dropDatabaseIfExists_env config w env tr :
  wp (dropDatabaseIfExists config) w env tr (fun _ evs env' => env_effect env env' evs).
Proof. repeat wp_step_with call_env_leaf; env_solve. Qed.

Ltac call_env m :=
  lazymatch m with
  | createDirectories _ => use_env createDirectories_env
  | exportSchema _ _ _ => use_env exportSchema_env
  | applySchema _ _ => use_env applySchema_env
  | generateRollbackScript _ _ _ => use_env generateRollbackScript_env
  | createDestinationBackup _ _ _ => use_env createDestinationBackup_env
  | dropDatabaseIfExists _ => use_env dropDatabaseIfExists_env
  | validateSourceConnection _ => use_env validateSourceConnection_env
  | validateConnections _ _ => use_env validateConnections_env
  | getSourceConfig _ => use_env getSourceConfig_env
  | getDestConfig _ _ => use_env getDestConfig_env
  | _ => call_env_leaf m
  end.

Lemma performSchemaMigration_env source dest options w env tr :
  wp (performSchemaMigration source dest options) w env tr
     (fun _ evs env' => env_effect env env' evs).
Proof. repeat wp_step_with call_env; env_solve. Qed.

Ltac call_env_run m :=
  lazymatch m with
  | performSchemaMigration _ _ _ =>
      first [ solve [wrong_mode] | use_env performSchemaMigration_env ]
  | _ => call_env m
  end.

Lemma run_env cmd w env :
  wp (runSchemaMigration cmd) w env [] (fun _ evs env' => env_effect env env' evs).
Proof.
  run_start.
  all: repeat wp_step_with call_env_run.
  all: env_solve.
Qed.

(** X10.  A run changes the environment of the process in one way only.
    If it starts no external tool, it leaves the environment exactly as
    it was.  If it starts one, it ends, however it ends, with [PGPASSWORD]
    and [PGSSLMODE] unset and every other variable as it was: the values
    that these two variables had before the run are not restored. *)
Theorem environment_after_run w cmd env :
  let env' := environ (run w cmd env).2 in
  (forall k, k <> "PGPASSWORD" -> k <> "PGSSLMODE" -> env' !! k = env !! k) /\
  (Exists (fun e => is_tool_run e) (run_events w cmd env) ->
   env' = without_tool_variables env /\
   env' !! "PGPASSWORD" = None /\ env' !! "PGSSLMODE" = None) /\
  (~ Exists (fun e => is_tool_run e) (run_events w cmd env) -> env' = env).
Proof.
  intros env'.
  pose proof (wp_run_events w cmd env _ (run_env cmd w env)) as H.
  fold env' in H. split; [|split].
  - intros k Hp Hs. destruct H as [[-> _]|[-> _]]; [reflexivity|].
    rewrite without_tool_variables_lookup.
    rewrite !bool_decide_eq_false_2 by assumption. reflexivity.
  - intros Hex. destruct H as [[_ Hno]|[H _]].
    + exfalso. apply Exists_exists in Hex as (e & Hin & He).
      rewrite Forall_forall in Hno. exact (Hno e Hin He).
    + split; [exact H|]. rewrite H, !without_tool_variables_lookup. split; reflexivity.
  - intros Hno. destruct H as [[H _]|[_ H]]; [exact H | contradiction].
Qed.

Lemma environment_after_run_witness :
  environ (run happy flags_direct inherited).2 !! "HOME" = Some "/root" /\
  environ (run happy flags_direct inherited).2 !! "PGPASSWORD" = None.
Proof.
  destruct (environment_after_run happy flags_direct inherited) as (Hframe & Htool & _).
  split.
  - rewrite Hframe by discriminate. reflexivity.
  - apply Htool. by_computation.
Defined.

(** ** How a run ends *)

Lemma inside_not_error F e : KLog ∉ fp_kinds F -> inside F e -> ~ is_error_log e.
Proof.
  intros HF H. destruct e; simpl in *; try tauto.
  apply bool_decide_unpack in H. contradiction.
Qed.

Section Endings.
Implicit Types (e : Event) (evs : list Event).

Lemma fails_one msg : fails_with_one_error [EvLog ERROR msg].
Proof. exists [], msg. split; [reflexivity | apply Forall_nil_2]. Qed.

Lemma fails_cons e evs :
  ~ is_error_log e -> fails_with_one_error evs -> fails_with_one_error (e :: evs).
Proof.
  intros He (pre & msg & -> & H). exists (e :: pre), msg.
  split; [reflexivity | apply Forall_cons_2; assumption].
Qed.

Lemma fails_app mid evs :
  Forall (fun e => ~ is_error_log e) mid -> fails_with_one_error evs ->
  fails_with_one_error (mid ++ evs).
Proof.
  intros Hmid (pre & msg & -> & H). exists (mid ++ pre), msg.
  split; [apply app_assoc | apply Forall_app_2; assumption].
Qed.

Lemma succeeds_end :
  succeeds [EvLog SUCCESS "Schema migration completed successfully!";
            EvReturn "runSchemaMigration" None].
Proof. exists []. split; [reflexivity | apply Forall_nil_2]. Qed.

Lemma succeeds_cons e evs : ~ is_error_log e -> succeeds evs -> succeeds (e :: evs).
Proof.
  intros He (pre & -> & H). exists (e :: pre).
  split; [reflexivity | apply Forall_cons_2; assumption].
Qed.

Lemma succeeds_app mid evs :
  Forall (fun e => ~ is_error_log e) mid -> succeeds evs -> succeeds (mid ++ evs).
Proof.
  intros Hmid (pre & -> & H). exists (mid ++ pre).
  split; [apply app_assoc | apply Forall_app_2; assumption].
Qed.
End Endings.

Ltac quiet_part :=
  first [ assumption
        | from_footprint; intros ?; apply inside_not_error; not_in_list ].

Ltac quiet_solve :=
  repeat first
    [ apply Forall_nil_2
    | apply Forall_cons_2; [lazy; tauto |]
    | apply Forall_app_2
    | quiet_part ].

Ltac finishes_leaf :=
  lazymatch goal with
  | |- finishes _ _ _ => split; [first [exact I | reflexivity] | quiet_solve]
  end.

Ltac use_finishes lem :=
  eapply wp_mono; [apply lem |];
  let Hok := fresh "Hok" in
  let Hquiet := fresh "Hquiet" in
  intros [?r| |?c] ? ? [Hok Hquiet]; cbn [present andb] in Hok;
  [ clear Hok | first [ discriminate Hok | clear Hok ] | destruct Hok ].

Lemma createDirectories_finishes options w env tr :
  wp (createDirectories options) w env tr (fun o evs _ => finishes true o evs).
Proof. wp_run; finishes_leaf. Qed.

Lemma exportSchema_finishes config outputFile options w env tr :
  wp (exportSchema config outputFile options) w env tr
     (fun o evs _ => finishes (present config) o evs).
Proof. destruct config; wp_run; finishes_leaf. Qed.

Lemma applySchema_finishes config schemaFile w env tr :
  wp (applySchema config schemaFile) w env tr
     (fun o evs _ => finishes (present config) o evs).
Proof. destruct config; wp_run; finishes_leaf. Qed.

Lemma databaseExists_finishes config w env tr :
  wp (databaseExists config) w env tr (fun o evs _ => finishes (present config) o evs).
Proof. destruct config; wp_run; finishes_leaf. Qed.

Lemma createDatabase_finishes config w env tr :
  wp (createDatabase config) w env tr (fun o evs _ => finishes (present config) o evs).
Proof. destruct config; wp_run; finishes_leaf. Qed.

Lemma generateRollbackScript_finishes config backupFile options w env tr :
  wp (generateRollbackScript config backupFile options) w env tr
     (fun o evs _ => finishes (present config) o evs).
Proof. destruct config; wp_run; finishes_leaf. Qed.

Lemma validateSourceConnection_finishes source w env tr :
  wp (validateSourceConnection source) w env tr
     (fun o evs _ => finishes (present source) o evs).
Proof. destruct source; wp_run; finishes_leaf. Qed.

Lemma validateConnections_finishes source dest w env tr :
  wp (validateConnections source dest) w env tr
     (fun o evs _ => finishes (present source && present dest) o evs).
Proof. destruct source, dest; wp_run; finishes_leaf. Qed.

Ltac call_finishes_leaf m :=
  lazymatch m with
  | databaseExists _ => use_finishes databaseExists_finishes
  | createDatabase _ => use_finishes createDatabase_finishes
  end.

Lemma createDestinationBackup_finishes config backupFile options w env tr :
  wp (createDestinationBackup config backupFile options) w env tr
     (fun o evs _ => finishes (present config) o evs).
Proof. destruct config; repeat wp_step_with call_finishes_leaf; finishes_leaf. Qed.

Lemma dropDatabaseIfExists_finishes config w env tr :
  wp (dropDatabaseIfExists config) w env tr
     (fun o evs _ => finishes (present config) o evs).
Proof. destruct config; repeat wp_step_with call_finishes_leaf; finishes_leaf. Qed.

Ltac call_finishes m :=
  lazymatch m with
  | createDirectories _ => use_finishes createDirectories_finishes
  | exportSchema _ _ _ => use_finishes exportSchema_finishes
  | applySchema _ _ => use_finishes applySchema_finishes
  | generateRollbackScript _ _ _ => use_finishes generateRollbackScript_finishes
  | createDestinationBackup _ _ _ => use_finishes createDestinationBackup_finishes
  | dropDatabaseIfExists _ => use_finishes dropDatabaseIfExists_finishes
  | validateSourceConnection _ => use_finishes validateSourceConnection_finishes
  | validateConnections _ _ => use_finishes validateConnections_finishes
  | getSourceConfig _ => use_config getSourceConfig_reads
  | getDestConfig _ _ => use_config getDestConfig_reads
  | _ => call_finishes_leaf m
  end.

Lemma performSchemaMigration_finishes source dest options w env tr :
  wp (performSchemaMigration source dest options) w env tr
     (fun o evs _ => finishes (present source && present dest) o evs).
Proof. destruct source, dest; repeat wp_step_with call_finishes; finishes_leaf. Qed.

Ltac call_finishes_run m :=
  lazymatch m with
  | performSchemaMigration _ _ _ =>
      first [ solve [wrong_mode] | use_finishes performSchemaMigration_finishes ]
  | _ => call_finishes m
  end.

Ltac ending_solve :=
  repeat first
    [ head_norm
    | apply fails_one
    | apply succeeds_end
    | apply fails_cons; [lazy; tauto |]
    | apply succeeds_cons; [lazy; tauto |]
    | apply fails_app; [quiet_part |]
    | apply succeeds_app; [quiet_part |] ].

Ltac run_ending_solve :=
  lazymatch goal with
  | |- run_ending _ (Val _) _ => ending_solve
  | |- run_ending _ (Exit _) _ => split; [reflexivity | ending_solve]
  | |- run_ending _ Panic _ => split; [assumption | quiet_solve]
  end.

Lemma run_ends cmd w env :
  wp (runSchemaMigration cmd) w env [] (fun o evs _ => run_ending cmd o evs).
Proof.
  unfold runSchemaMigration.
  destruct (decide (mode cmd = "direct")) as [Hmode|Hd];
    [|destruct (decide (mode cmd = "export")) as [Hmode|He]].
  - rewrite (parseMigrationOptions_mode cmd (or_introl Hmode)).
    repeat wp_step_with call_finishes_run.
    all: run_ending_solve.
  - rewrite (parseMigrationOptions_mode cmd (or_intror Hmode)).
    repeat wp_step_with call_finishes_run.
    all: run_ending_solve.
  - rewrite (parseMigrationOptions_bad_mode cmd Hd He).
    repeat wp_step. run_ending_solve.
Qed.

(** X11.  A run ends in one of three ways.  It returns, and then its last
    events are the success line and the return of [runSchemaMigration] and
    it has logged no error.  Or it exits, and then the exit code is 1 and
    the last event is an error line, the only error line of the run.  Or it
    panics, which happens in export mode only: with the mode [direct] the
    run never dereferences a nil configuration. *)
Theorem run_ends_in_one_of_three_ways w cmd env :
  run_ending cmd (run w cmd env).1 (run_events w cmd env) /\
  (mode cmd = "direct" ->
   (run w cmd env).1 = Val tt \/ (run w cmd env).1 = Exit 1).
Proof.
  pose proof (wp_run_events w cmd env _ (run_ends cmd w env)) as H.
  split; [exact H|]. intros Hmode.
  destruct (run w cmd env).1 as [[]| |c]; simpl in H.
  - left. reflexivity.
  - destruct H as [He _]. rewrite Hmode in He. discriminate He.
  - destruct H as [-> _]. right. reflexivity.
Qed.

Lemma run_ends_in_one_of_three_ways_witness :
  (run happy flags_direct ∅).1 = Val tt \/ (run happy flags_direct ∅).1 = Exit 1.
Proof.
  destruct (run_ends_in_one_of_three_ways happy flags_direct ∅) as [_ H].
  apply H. reflexivity.
Defined.

(** ** The order of the steps *)

(** Symbolic execution of a run down to the calls that
    [performSchemaMigration] and [validateConnections] make. *)
Ltac call_order m :=
  lazymatch m with
  | validateConnections _ _ => fail
  | _ => call_steps m
  end.

Lemma run_order cmd w env :
  wp (runSchemaMigration cmd) w env []
     (fun _ evs _ =>
        preceded_by (is_success "validateSourceConnection")
                    (is_call "performSchemaMigration") evs /\
        (mode cmd = "direct" ->
         preceded_by (is_success "validateConnections")
                     (is_call "performSchemaMigration") evs) /\
        preceded_by (is_success "createDirectories") (is_call "exportSchema") evs /\
        preceded_by (is_success "exportSchema") (is_call "createDestinationBackup") evs /\
        preceded_by (is_success "exportSchema") (is_call "recreateDestinationDatabase") evs /\
        preceded_by (is_success "exportSchema") (is_call "generateRollbackScript") evs).
Proof.
  run_start.
  all: repeat wp_step_with call_order.
  all: split; [|split; [intros Hmode; try solve [wrong_mode] |repeat split]].
  all: apply preceded_by_from; pf_solve.
Qed.

(** X12.  The steps of a run are gated by the success of the steps
    before them.  [performSchemaMigration] is called only after the
    validation of the source connection has returned [nil], and in direct
    mode only after [validateConnections] has returned [nil].  The schema
    export is called only after the directories were created.  The
    destination backup, the recreation of the destination database and the
    generation of the rollback script are called only after the export has
    returned [nil]: a failed export leaves the destination server
    untouched. *)
Theorem steps_are_gated w cmd env :
  preceded_by (is_success "validateSourceConnection") (is_call "performSchemaMigration")
              (run_events w cmd env) /\
  (mode cmd = "direct" ->
   preceded_by (is_success "validateConnections") (is_call "performSchemaMigration")
               (run_events w cmd env)) /\
  preceded_by (is_success "createDirectories") (is_call "exportSchema")
              (run_events w cmd env) /\
  preceded_by (is_success "exportSchema") (is_call "createDestinationBackup")
              (run_events w cmd env) /\
  preceded_by (is_success "exportSchema") (is_call "recreateDestinationDatabase")
              (run_events w cmd env) /\
  preceded_by (is_success "exportSchema") (is_call "generateRollbackScript")
              (run_events w cmd env).
Proof. apply (wp_run_events w cmd env _ (run_order cmd w env)). Qed.

Lemma steps_are_gated_witness :
  preceded_by (is_success "validateConnections") (is_call "performSchemaMigration")
              (run_events happy flags_direct ∅).
Proof.
  destruct (steps_are_gated happy flags_direct ∅) as (_ & H & _). apply H. reflexivity.
Defined.

(** ** The rollback script *)

Lemma embeds_here x s : Str.embeds (x +:+ s) x.
Proof. exists EmptyString, s. reflexivity. Qed.

Lemma embeds_skip_char a s x : Str.embeds s x -> Str.embeds (String a s) x.
Proof. intros (pre & post & ->). exists (String a pre), post. reflexivity. Qed.

Lemma append_assoc (a b c : string) : (a +:+ b) +:+ c = a +:+ b +:+ c.
Proof.
  induction a as [|ch a IH]; [reflexivity|].
  change (String ch ((a +:+ b) +:+ c) = String ch (a +:+ b +:+ c)). f_equal. exact IH.
Qed.

Lemma embeds_skip_app y s x : Str.embeds s x -> Str.embeds (y +:+ s) x.
Proof.
  intros (pre & post & ->). exists (y +:+ pre), post. rewrite append_assoc. reflexivity.
Qed.

(** Every argument that a format prints occurs in the result. *)
Lemma Sprintf_embeds_bounded n : forall format args x,
  String.length format <= n ->
  x ∈ take (verbs format) args -> Str.embeds (fmt.Sprintf format args) x.
Proof.
  induction n as [|n IH]; intros [|a rest] args x Hlen Hx; simpl in *;
    try (apply elem_of_nil in Hx; destruct Hx); try lia.
  destruct (fmt.is_char 37 a).
  - destruct rest as [|v rest']; simpl in *.
    { apply elem_of_nil in Hx. destruct Hx. }
    destruct (fmt.is_char 115 v || fmt.is_char 118 v).
    + destruct args as [|x0 args']; simpl in Hx.
      { apply elem_of_nil in Hx. destruct Hx. }
      apply elem_of_cons in Hx as [->|Hx]; [apply embeds_here|].
      apply embeds_skip_app. apply IH; [lia | exact Hx].
    + destruct (fmt.is_char 37 v).
      * apply embeds_skip_char. apply IH; [lia | exact Hx].
      * do 2 apply embeds_skip_char. apply IH; [lia | exact Hx].
  - apply embeds_skip_char. apply IH; [lia | exact Hx].
Qed.

Lemma Sprintf_embeds format args x :
  x ∈ take (verbs format) args -> Str.embeds (fmt.Sprintf format args) x.
Proof. apply (Sprintf_embeds_bounded (String.length format)). lia. Qed.

Lemma verbs_rollbackTemplate : verbs rollbackTemplate = 18.
Proof. vm_compute. reflexivity. Qed.

Lemma rollbackScriptText_embeds created c backupFile :
  Forall (fun x => Str.embeds (rollbackScriptText created c backupFile) x)
         [created; Host c; Port c; Username c; Database c; SSLMode c; backupFile].
Proof.
  repeat apply Forall_cons_2; try apply Forall_nil_2.
  all: apply Sprintf_embeds; rewrite verbs_rollbackTemplate; cbn [take].
  all: repeat first [ apply list_elem_of_here | apply list_elem_of_further ].
Qed.

Lemma rollbackScriptText_password created c backupFile p :
  rollbackScriptText created (with_password p c) backupFile
  = rollbackScriptText created c backupFile.
Proof.
  unfold rollbackScriptText, with_password.
  cbn [Host Port Username Database SSLMode]. reflexivity.
Qed.

Lemma generateRollbackScript_noop config backupFile options w env tr :
  CreateBackup options = false \/ backupFile = "" ->
  wp (generateRollbackScript config backupFile options) w env tr
     (fun o evs _ =>
        o = Val None /\
        evs = [EvCall "generateRollbackScript"; EvReturn "generateRollbackScript" None]).
Proof.
  intros H. unfold generateRollbackScript.
  assert (Hc : negb (CreateBackup options) || Str.eqb backupFile "" = true).
  { destruct H as [->| ->]; [reflexivity|]. rewrite eqb_refl. apply orb_true_r. }
  rewrite Hc. wp_run. split; reflexivity.
Qed.

Lemma generateRollbackScript_writes c backupFile options w env tr :
  CreateBackup options = true -> backupFile <> "" ->
  wp (generateRollbackScript (Some c) backupFile options) w env tr
     (fun o evs _ =>
        exists t res, o = Val res /\
                      evs = script_written c backupFile options (clock w t) res).
Proof.
  intros Hb Hf. unfold generateRollbackScript.
  assert (Hc : negb (CreateBackup options) || Str.eqb backupFile "" = false).
  { rewrite Hb. apply bool_decide_eq_false_2. exact Hf. }
  rewrite Hc. repeat wp_step_knowing no_call; subst.
  all: eexists _, _; (split; [reflexivity|]).
  all: unfold script_written; cbn [app id]; reflexivity.
Qed.

(** X13.  [generateRollbackScript] does nothing but return [nil] when
    backups are disabled or the path of the backup file is empty, even
    with a nil configuration.  Otherwise it writes one file,
    [rollback.sh] in the output directory, with mode [0755], and returns
    the result of that write unchanged.  The text of the script contains
    the time of generation, the host, port, user, database and SSL mode of
    the destination and the path of the backup file, and it is the same
    text whatever the password is. *)
Theorem rollback_script_is_written c config backupFile options w s :
  (CreateBackup options = false \/ backupFile = "" ->
   (generateRollbackScript config backupFile options w s).1 = Val None /\
   events_of (generateRollbackScript config backupFile options) w s =
     [EvCall "generateRollbackScript"; EvReturn "generateRollbackScript" None]) /\
  (CreateBackup options = true -> backupFile <> "" ->
   exists t res,
     (generateRollbackScript (Some c) backupFile options w s).1 = Val res /\
     events_of (generateRollbackScript (Some c) backupFile options) w s =
       script_written c backupFile options (clock w t) res) /\
  (forall created,
     Forall (fun x => Str.embeds (rollbackScriptText created c backupFile) x)
            [created; Host c; Port c; Username c; Database c; SSLMode c; backupFile] /\
     forall p, rollbackScriptText created (with_password p c) backupFile
               = rollbackScriptText created c backupFile).
Proof.
  split; [|split].
  - intros H.
    apply (wp_events _ w s _
             (generateRollbackScript_noop config backupFile options w _ _ H)).
  - intros Hb Hf.
    destruct (wp_events _ w s _
                (generateRollbackScript_writes c backupFile options w _ _ Hb Hf))
      as (t & res & Ho & Hevs).
    exists t, res. split; assumption.
  - intros created. split; [apply rollbackScriptText_embeds|].
    intros p. apply rollbackScriptText_password.
Qed.

Lemma rollback_script_is_written_witness :
  (generateRollbackScript None "" (mkOptions "direct" "./out" true "out/backup" false true false)
     happy (start ∅)).1 = Val None /\
  exists t res,
    (generateRollbackScript
       (Some (mkConfig "localhost" "5432" "postgres" "secret" "shop_staging" "require"))
       "out/backup/backup_shop_staging_20250102_030405.sql"
       (mkOptions "direct" "./out" true "out/backup" false true false)
       happy (start ∅)).1 = Val res /\
    events_of
      (generateRollbackScript
         (Some (mkConfig "localhost" "5432" "postgres" "secret" "shop_staging" "require"))
         "out/backup/backup_shop_staging_20250102_030405.sql"
         (mkOptions "direct" "./out" true "out/backup" false true false))
      happy (start ∅) =
    script_written
      (mkConfig "localhost" "5432" "postgres" "secret" "shop_staging" "require")
      "out/backup/backup_shop_staging_20250102_030405.sql"
      (mkOptions "direct" "./out" true "out/backup" false true false)
      (clock happy t) res.
Proof.
  split.
  - apply (rollback_script_is_written
             (mkConfig "localhost" "5432" "postgres" "secret" "shop_staging" "require")
             None "" (mkOptions "direct" "./out" true "out/backup" false true false)
             happy (start ∅)).
    right. reflexivity.
  - apply (rollback_script_is_written
             (mkConfig "localhost" "5432" "postgres" "secret" "shop_staging" "require")
             None "out/backup/backup_shop_staging_20250102_030405.sql"
             (mkOptions "direct" "./out" true "out/backup" false true false)
             happy (start ∅)); [reflexivity | discriminate].
Defined.

Lemma Clean_nonempty p : filepath.Clean p <> "".
Proof.
  unfold filepath.Clean. destruct (Str.eqb p ""); [discriminate|].
  destruct (filepath.is_rooted p); [discriminate|].
  destruct (Str.eqb _ "") eqn:Hb; [discriminate|]. apply eqb_false. exact Hb.
Qed.

Lemma Join_nonempty d f : f <> "" -> filepath.Join [d; f] <> "".
Proof.
  intros Hf. cbn [filepath.Join]. destruct (Str.eqb d "").
  - destruct (Str.eqb f "") eqn:Hb; [|apply Clean_nonempty].
    apply eqb_true in Hb. contradiction.
  - apply Clean_nonempty.
Qed.

Lemma backup_path_nonempty dir db ts :
  filepath.Join [dir; fmt.Sprintf "backup_%s_%s.sql" [db; ts]] <> "".
Proof. apply Join_nonempty. discriminate. Qed.

Ltac use_script :=
  eapply wp_mono;
  [ apply generateRollbackScript_writes; [reflexivity | apply backup_path_nonempty] |];
  intros ? ? ? (?t & ?res & -> & ->); unfold script_written; cbn [OutputDir].

Ltac call_script m :=
  lazymatch m with
  | generateRollbackScript (Some _) _ _ => use_script
  | _ => call_steps m
  end.

Ltac script_solve :=
  repeat first
    [ head_norm
    | apply always_followed_nil
    | apply always_followed_app; [neutral_call |]
    | apply always_followed_neutral; neutral_call
    | apply always_followed_cons;
      [ let H := fresh in
        intros H; lazy in H;
        first [ solve [destruct H]
              | clear H; cbn [app]; eexists _, _, _; reflexivity ] | ] ].

Lemma run_writes_script cmd w env :
  no_backup cmd = false ->
  wp (runSchemaMigration cmd) w env []
     (fun _ evs _ =>
        always_followed (is_call "generateRollbackScript") (writes_rollback_script cmd) evs).
Proof.
  intros Hbackup. run_start.
  all: rewrite ?Hbackup; cbn [negb].
  all: repeat wp_step_with call_script.
  all: script_solve.
Qed.

Ltac use_noop :=
  eapply wp_mono;
  [ apply generateRollbackScript_noop; left; reflexivity |];
  intros ? ? ? [-> ->].

Ltac call_noop m :=
  lazymatch m with
  | generateRollbackScript _ _ _ => use_noop
  | _ => call_steps m
  end.

Lemma run_without_backup_writes_nothing cmd w env :
  no_backup cmd = true ->
  wp (runSchemaMigration cmd) w env []
     (fun _ evs _ => Forall (fun e => ~ inside fp_write e) evs).
Proof.
  intros Hbackup. run_start.
  all: rewrite ?Hbackup; cbn [negb].
  all: repeat wp_step_with call_noop.
  all: safe_solve.
Qed.

(** X14.  With backups enabled, every call of [generateRollbackScript] in
    a run writes [rollback.sh] into the output directory, with mode
    [0755]: the path of the backup file is never empty, so the script is
    written whether or not a backup file was produced (the destination
    database may be absent, or its dump may have failed).  With
    [--no-backup] the program writes no file itself. *)
Theorem rollback_script_of_a_run w cmd env :
  (no_backup cmd = false ->
   always_followed (is_call "generateRollbackScript") (writes_rollback_script cmd)
                   (run_events w cmd env)) /\
  (no_backup cmd = true ->
   Forall (fun e => ~ inside fp_write e) (run_events w cmd env)).
Proof.
  split; intros Hbackup.
  - apply (wp_run_events w cmd env _ (run_writes_script cmd w env Hbackup)).
  - apply (wp_run_events w cmd env _ (run_without_backup_writes_nothing cmd w env Hbackup)).
Qed.

Lemma rollback_script_of_a_run_witness :
  always_followed (is_call "generateRollbackScript") (writes_rollback_script flags_direct)
                  (run_events absent flags_direct ∅).
Proof. apply (rollback_script_of_a_run absent flags_direct ∅). reflexivity. Defined.

(** The direct run against a server without the destination database:
    no backup is made, and the script that restores from it is written. *)
Example rollback_script_without_backup :
  length (of_kind KDump (run_events absent flags_direct ∅)) = 1 /\
  List.map (fun e => match e with
                     | EvWriteFile path content perm res =>
                         (path, perm, res,
                          bool_decide
                            ("    psql -h localhost -p 5432 -U postgres -d shop_staging -f out/backup/backup_shop_staging_20250102_030405.sql"
                             ∈ Str.split (Ascii.ascii_of_nat 10) content))
                     | _ => (EmptyString, 0%N, None, false)
                     end)
           (of_kind KWrite (run_events absent flags_direct ∅))
  = [("out/rollback.sh", 493%N, None, true)].
Proof. split; vm_compute; reflexivity. Qed.

(** ** Export mode reaches the source only *)

Lemma validateSourceConnection_connection c w env tr :
  wp (validateSourceConnection (Some c)) w env tr
     (fun _ evs _ => Forall (connects_only [sourceConnStr c]) evs).
Proof. wp_run; conn_solve. Qed.

Lemma performSchemaMigration_export_steps source options w env tr :
  wp (performSchemaMigration source None options) w env tr
     (fun _ evs _ => Forall (fun e => inside fp_export_steps e) evs).
Proof. repeat wp_step_with call_export; fp_solve. Qed.

Lemma connects_only_source cmd pw e :
  connects_only [sourceConnStr (mkConfig (source_host cmd) (source_port cmd)
                                  (source_user cmd) pw (source_db cmd) (source_ssl cmd))] e ->
  connects_to_source cmd e.
Proof.
  unfold connects_only, connects_to_source. destruct (conn_of e) as [connStr|]; [|auto].
  intros H. apply list_elem_of_singleton in H. exists pw. exact H.
Qed.

Lemma inside_no_connection F cmd e :
  KConn ∉ fp_kinds F -> KQuery ∉ fp_kinds F -> KExec ∉ fp_kinds F ->
  inside F e -> connects_to_source cmd e.
Proof.
  intros Hc Hq He H. unfold connects_to_source.
  destruct e; simpl in *; try exact I; apply bool_decide_unpack in H; contradiction.
Qed.

Ltac use_export_steps :=
  first [ solve [wrong_mode]
        | eapply wp_mono; [apply performSchemaMigration_export_steps |];
          let H := fresh "Hsteps" in intros [?r| |?c] ? ? H ].

Ltac call_export_fp m :=
  lazymatch m with
  | getSourceConfig _ => use_config getSourceConfig_reads
  | validateSourceConnection _ => use_summary validateSourceConnection_called
  | performSchemaMigration _ None _ => use_export_steps
  end.

Lemma run_export_footprint cmd w env :
  mode cmd = "export" ->
  wp (runSchemaMigration cmd) w env []
     (fun _ evs _ => Forall (fun e => inside fp_export_mode e) evs).
Proof.
  intros Hmode. run_start.
  all: repeat wp_step_with call_export_fp.
  all: fp_solve.
Qed.

Ltac call_export_conn m :=
  lazymatch m with
  | validateSourceConnection (Some _) =>
      eapply wp_mono; [apply validateSourceConnection_connection |];
      let H := fresh "Hconn" in intros [?r| |?c] ? ? H
  | performSchemaMigration _ None _ => use_export_steps
  end.

Ltac source_solve :=
  repeat first
    [ apply Forall_nil_2
    | apply Forall_app_2
    | apply Forall_cons_2; [exact I |]
    | match goal with
      | H : Forall (connects_only _) ?l |- Forall _ ?l =>
          eapply Forall_impl; [exact H |]; intros ?; apply connects_only_source
      | H : Forall _ ?l |- Forall _ ?l =>
          eapply Forall_impl; [exact H |]; intros ?; apply inside_no_connection; not_in_list
      end ].

Lemma run_export_connections cmd w env :
  mode cmd = "export" ->
  wp (runSchemaMigration cmd) w env []
     (fun _ evs _ => Forall (connects_to_source cmd) evs).
Proof.
  intros Hmode. run_start.
  all: repeat wp_step_with call_export_conn.
  all: source_solve.
Qed.

(** X15.  A run in export mode reaches the source server only.  Every
    connection it opens, pings or closes is the connection to the source
    database that the flags name.  It sends no query and no statement to
    any server, runs no [psql] and writes no file itself; it does not
    call the validation of the destination, the destination backup, the
    schema application or the generation of the rollback script.  Of the
    destination steps only the recreation, its drop and its existence
    check can be entered, with a nil configuration, and they reach no
    server. *)
Theorem export_mode_reaches_source_only w cmd env :
  mode cmd = "export" ->
  Forall (fun e => inside fp_export_mode e) (run_events w cmd env) /\
  Forall (connects_to_source cmd) (run_events w cmd env).
Proof.
  intros Hmode. split.
  - apply (wp_run_events w cmd env _ (run_export_footprint cmd w env Hmode)).
  - apply (wp_run_events w cmd env _ (run_export_connections cmd w env Hmode)).
Qed.

Lemma export_mode_reaches_source_only_witness :
  Forall (fun e => inside fp_export_mode e) (run_events happy flags_export ∅) /\
  Forall (connects_to_source flags_export) (run_events happy flags_export ∅).
Proof. apply (export_mode_reaches_source_only happy flags_export ∅). reflexivity. Defined.

(** ** Failures of the rollback script *)

Lemma inside_not_script_ignored F e :
  "generateRollbackScript" ∉ fp_names F -> inside F e -> script_failure_ignored e = None.
Proof.
  intros Hn H. destruct e; try reflexivity. simpl in *.
  apply bool_decide_unpack in H. unfold Str.eqb.
  case_bool_decide; subst; try contradiction; reflexivity.
Qed.

Lemma inside_not_script_fatal F e :
  "generateRollbackScript" ∉ fp_names F -> inside F e -> script_failure_fatal e = None.
Proof.
  intros Hn H. destruct e; try reflexivity. simpl in *.
  apply bool_decide_unpack in H. unfold Str.eqb.
  case_bool_decide; subst; try contradiction; reflexivity.
Qed.

Ltac neutral_script :=
  from_footprint; intros ?;
  first [ apply inside_not_script_ignored | apply inside_not_script_fatal ]; not_in_list.

Ltac script_next_solve :=
  repeat first
    [ head_norm
    | apply always_next_nil
    | apply always_next_app; [neutral_script |]
    | apply always_next_neutral; neutral_script
    | apply always_next_cons; [next_step |] ].

Lemma run_script_after_apply cmd w env :
  dry_run cmd = false ->
  wp (runSchemaMigration cmd) w env []
     (fun _ evs _ =>
        preceded_by (is_success "applySchema") (is_call "generateRollbackScript") evs /\
        always_next script_failure_ignored evs).
Proof.
  intros Hdry. run_start.
  all: repeat wp_step_with call_steps.
  all: split; [apply preceded_by_from; pf_solve | script_next_solve].
Qed.

Lemma run_script_failure_in_dry_run cmd w env :
  dry_run cmd = true ->
  wp (runSchemaMigration cmd) w env [] (fun _ evs _ => always_next script_failure_fatal evs).
Proof.
  intros Hdry. run_start.
  all: repeat wp_step_with call_steps.
  all: script_next_solve.
Qed.

(** X16.  In a run that is not a dry run, the rollback script is
    generated only after [applySchema] has returned [nil]: when the
    recreation or the application of the schema fails, no script is
    written.  A failure to write the script is then a warning, and the
    migration ends with success.  In a dry run the same failure is the
    error of the migration: it is returned by [performSchemaMigration]
    and logged as "Schema migration failed". *)
Theorem rollback_script_failure w cmd env :
  (dry_run cmd = false ->
   preceded_by (is_success "applySchema") (is_call "generateRollbackScript")
               (run_events w cmd env) /\
   always_next script_failure_ignored (run_events w cmd env)) /\
  (dry_run cmd = true -> always_next script_failure_fatal (run_events w cmd env)).
Proof.
  split; intros Hdry.
  - apply (wp_run_events w cmd env _ (run_script_after_apply cmd w env Hdry)).
  - apply (wp_run_events w cmd env _ (run_script_failure_in_dry_run cmd w env Hdry)).
Qed.

Lemma rollback_script_failure_witness :
  always_next script_failure_ignored (run_events read_only_output flags_direct ∅) /\
  always_next script_failure_fatal
              (run_events read_only_output (with_dry_run flags_direct) ∅).
Proof.
  split.
  - apply (rollback_script_failure read_only_output flags_direct ∅). reflexivity.
  - apply (rollback_script_failure read_only_output (with_dry_run flags_direct) ∅).
    reflexivity.
Defined.

(** The two runs in which the script cannot be written. *)
Example rollback_script_failure_runs :
  (run read_only_output flags_direct ∅).1 = Val tt /\
  reports (run_events read_only_output flags_direct ∅) =
    [EvLog WARNING "Failed to generate rollback script: permission denied"] /\
  (run read_only_output (with_dry_run flags_direct) ∅).1 = Exit 1 /\
  reports (run_events read_only_output (with_dry_run flags_direct) ∅) =
    [EvLog ERROR "Schema migration failed: permission denied"].
Proof. repeat split; vm_compute; reflexivity. Qed.

(** ** The statements of [dropDatabaseIfExists] *)

Lemma dropDatabaseIfExists_statements c w env tr :
  wp (dropDatabaseIfExists (Some c)) w env tr
     (fun o evs _ =>
        of_kind KExec evs = [] \/
        exists r1 r2 q,
          of_kind KExec evs =
            [EvExec (adminConnStr c) terminateQuery [Database c] r1;
             EvExec (adminConnStr c)
                    (fmt.Sprintf ("DROP DATABASE " +:+ dq +:+ "%s" +:+ dq) [Database c]) [] r2] /\
          of_kind KQuery evs = [EvQueryRow (adminConnStr c) q [Database c] (Ok true)] /\
          o = Val r2).
Proof.
  wp_run.
  all: repeat match goal with
              | H : negb ?b = _ |- _ => destruct b; [| discriminate H]; clear H
              end.
  all: first [ left; reflexivity
             | right; eexists _, _, _; split; [reflexivity | split; reflexivity] ].
Qed.

(** X17.  [dropDatabaseIfExists] executes either no statement at all or
    exactly two, on the connection to the database [postgres]: first the
    termination of the sessions of the destination database, then
    [DROP DATABASE] with the name in double quotes.  The drop is executed
    whether or not the termination succeeded, and its result is what the
    function returns.  The two statements are executed only when the
    existence check has answered [true]. *)
Theorem drop_follows_session_termination c w s :
  let evs := events_of (dropDatabaseIfExists (Some c)) w s in
  of_kind KExec evs = [] \/
  exists r1 r2 q,
    of_kind KExec evs =
      [EvExec (adminConnStr c) terminateQuery [Database c] r1;
       EvExec (adminConnStr c)
              (fmt.Sprintf ("DROP DATABASE " +:+ dq +:+ "%s" +:+ dq) [Database c]) [] r2] /\
    of_kind KQuery evs = [EvQueryRow (adminConnStr c) q [Database c] (Ok true)] /\
    (dropDatabaseIfExists (Some c) w s).1 = Val r2.
Proof.
  apply (wp_events _ w s _ (dropDatabaseIfExists_statements c w (environ s) (trace s))).
Qed.

(** The sessions cannot be terminated; the database is dropped all the
    same, and the run succeeds with a warning. *)
Example termination_failure_is_a_warning :
  (run (refusing "
		SELECT pg_terminate_backend") flags_direct ∅).1 = Val tt /\
  reports (run_events (refusing "
		SELECT pg_terminate_backend") flags_direct ∅) =
    [EvLog WARNING "Could not terminate all connections: permission denied"] /\
  dest_state (run_events (refusing "
		SELECT pg_terminate_backend") flags_direct ∅) = Created.
Proof. repeat split; vm_compute; reflexivity. Qed.

(** ** The directories *)

Lemma createDirectories_steps options w env tr :
  wp (createDirectories options) w env tr
     (fun o evs env' =>
        env' = env /\
        ((exists r, of_kind KMkdir evs = [EvMkdirAll (OutputDir options) r] /\
                    o = Val r /\ (r = None -> CreateBackup options = false)) \/
         (exists r, CreateBackup options = true /\
                    of_kind KMkdir evs = [EvMkdirAll (OutputDir options) None;
                                          EvMkdirAll (BackupDir options) r] /\
                    o = Val r))).
Proof.
  wp_run.
  all: split; [reflexivity|].
  all: first [ solve [ left; eexists; split; [reflexivity | split; [reflexivity|]];
                       first [ discriminate | intros _; reflexivity ] ]
             | right; eexists; split; [reflexivity | split; reflexivity] ].
Qed.

(** X18.  [createDirectories] creates the output directory first.  It
    creates the backup directory only when backups are enabled and the
    output directory was created; it creates nothing else, returns the
    first error unchanged and stops there, and leaves the environment as
    it was. *)
Theorem directories_are_created_in_order options w s :
  let evs := events_of (createDirectories options) w s in
  environ (createDirectories options w s).2 = environ s /\
  ((exists r, of_kind KMkdir evs = [EvMkdirAll (OutputDir options) r] /\
              (createDirectories options w s).1 = Val r /\
              (r = None -> CreateBackup options = false)) \/
   (exists r, CreateBackup options = true /\
              of_kind KMkdir evs = [EvMkdirAll (OutputDir options) None;
                                    EvMkdirAll (BackupDir options) r] /\
              (createDirectories options w s).1 = Val r)).
Proof.
  apply (wp_events _ w s _ (createDirectories_steps options w (environ s) (trace s))).
Qed.
